(** * CodeForesight: the demo programs and the three-stage gate

    A shallow embedding of [demo_vuln.c] (the vulnerable demo) and of its
    Stage-1-fixed sibling, over a small model of the C library calls they
    make.  Buffers are lists of characters; every store is bounds checked
    and answers a [Fault] instead of touching memory outside the buffer,
    so the overflows of the vulnerable demo show up as values.

    The gate that analyses the demos (Stage 1, Stage 2, Stage 3 and the
    orchestrator) is modelled in [Pipeline] from its specification. *)

From Stdlib Require Import ZArith List Ascii String Lia Bool Arith.
From Stdlib Require Import QArith Qcanon Lqa Permutation Sorted.
From Stdlib Require DecimalString HexadecimalString.
Import ListNotations.

Close Scope Qc_scope.
Close Scope Q_scope.
Close Scope Z_scope.
Open Scope nat_scope.
Open Scope list_scope.

(** ** Characters, buffers and faults *)

Definition char := ascii.
Definition buffer := list char.

Definition NUL : char := Ascii.zero.
Definition LF : char := "010"%char.

Definition is_nul (c : char) : bool := Ascii.eqb c NUL.

(** A C string literal, without its terminator. *)
Definition lit (s : string) : list char := list_ascii_of_string s.

(** A C string literal as it lies in memory. *)
Definition literal (s : string) : buffer := lit s ++ [NUL].

Inductive fault : Type :=
| OutOfBoundsRead
| OutOfBoundsWrite.

Inductive result (A : Type) : Type :=
| Ok (a : A)
| Fault (f : fault).

Arguments Ok {A} a.
Arguments Fault {A} f.

Definition bind {A B : Type} (m : result A) (k : A -> result B) : result B :=
  match m with
  | Ok a => k a
  | Fault f => Fault f
  end.

Declare Scope c_scope.
Delimit Scope c_scope with c.
Notation "x <- m ;; k" := (bind m (fun x => k))
  (at level 61, m at next level, right associativity) : c_scope.
Open Scope c_scope.

(** An automatic array of [n] chars: its content before the first store is
    whatever the stack held, [stack] giving the byte at each offset. *)
Definition alloca (stack : nat -> char) (off n : nat) : buffer :=
  map stack (seq off n).

(** ** The C library calls of the demo *)

(** The demos call [strcpy], [strncpy], [memcpy], [strlen], [sprintf] and
    [printf]; these follow the C standard, each store going through the
    bounds check of [store], each read of a string stopping with a fault
    at the end of a buffer that holds no terminator. *)
Module Libc.

(** [b[i] = c] *)
Fixpoint store (b : buffer) (i : nat) (c : char) : result buffer :=
  match b, i with
  | [], _ => Fault OutOfBoundsWrite
  | _ :: t, O => Ok (c :: t)
  | h :: t, S j => t' <- store t j c ;; Ok (h :: t')
  end.

(** The characters of the string at [s], up to its terminator. *)
Fixpoint cstr (s : buffer) : result (list char) :=
  match s with
  | [] => Fault OutOfBoundsRead
  | c :: t => if is_nul c then Ok [] else r <- cstr t ;; Ok (c :: r)
  end.

Fixpoint strlen (s : buffer) : result nat :=
  match s with
  | [] => Fault OutOfBoundsRead
  | c :: t => if is_nul c then Ok 0 else n <- strlen t ;; Ok (S n)
  end.

(** [strcpy]: copy up to and including the terminator, whatever the
    room at [dst]. *)
Fixpoint strcpy_at (dst : buffer) (i : nat) (src : buffer) : result buffer :=
  match src with
  | [] => Fault OutOfBoundsRead
  | c :: t =>
      dst' <- store dst i c ;;
      if is_nul c then Ok dst' else strcpy_at dst' (S i) t
  end.

Definition strcpy (dst src : buffer) : result buffer := strcpy_at dst 0 src.

(** [memcpy]: exactly [n] bytes. *)
Fixpoint memcpy_at (dst : buffer) (i : nat) (src : buffer) (n : nat)
         {struct n} : result buffer :=
  match n with
  | O => Ok dst
  | S m =>
      match src with
      | [] => Fault OutOfBoundsRead
      | c :: t => dst' <- store dst i c ;; memcpy_at dst' (S i) t m
      end
  end.

Definition memcpy (dst src : buffer) (n : nat) : result buffer :=
  memcpy_at dst 0 src n.

Fixpoint memset_at (dst : buffer) (i : nat) (c : char) (n : nat)
  : result buffer :=
  match n with
  | O => Ok dst
  | S m => dst' <- store dst i c ;; memset_at dst' (S i) c m
  end.

(** [strncpy]: at most [n] characters of [src]; when [src] ends before
    that, the rest of the [n] bytes is filled with terminators; when it
    does not, no terminator is written. *)
Fixpoint strncpy_at (dst : buffer) (i : nat) (src : buffer) (n : nat)
         {struct n} : result buffer :=
  match n with
  | O => Ok dst
  | S m =>
      match src with
      | [] => Fault OutOfBoundsRead
      | c :: t =>
          dst' <- store dst i c ;;
          if is_nul c then memset_at dst' (S i) NUL m
          else strncpy_at dst' (S i) t m
      end
  end.

Definition strncpy (dst src : buffer) (n : nat) : result buffer :=
  strncpy_at dst 0 src n.

(** The text a format produces.  The demo's formats under study use
    plain characters and the [%s] directive. *)
Fixpoint format (fmt : list char) (args : list buffer) : result (list char) :=
  match fmt with
  | [] => Ok []
  | c :: rest =>
      match rest with
      | d :: rest' =>
          if (Ascii.eqb c "%" && Ascii.eqb d "s")%bool then
            match args with
            | [] => Fault OutOfBoundsRead
            | a :: args' =>
                s <- cstr a ;;
                r <- format rest' args' ;;
                Ok (s ++ r)
            end
          else r <- format rest args ;; Ok (c :: r)
      | [] => Ok [c]
      end
  end.

Fixpoint write_at (dst : buffer) (i : nat) (bytes : list char)
  : result buffer :=
  match bytes with
  | [] => Ok dst
  | c :: t => dst' <- store dst i c ;; write_at dst' (S i) t
  end.

(** [sprintf]: the formatted text and its terminator, with no limit. *)
Definition sprintf (out : buffer) (fmt : list char) (args : list buffer)
  : result buffer :=
  s <- format fmt args ;; write_at out 0 (s ++ [NUL]).

(** [printf]: the formatted text appended to the standard output. *)
Definition printf (fmt : list char) (args : list buffer)
           (stdout : list char) : result (list char) :=
  s <- format fmt args ;; Ok (stdout ++ s).

End Libc.

(** ** Formatted output with numbers *)

(** The rest of the demos prints numbers too.  [vprintf] follows the C
    standard for the directives the demos use: [%s], [%d], [%zu], and the
    zero-padded [%0Wzu] and [%0Wx] with a one-digit width [W]. *)
Module Stdio.
Import Libc.

(** [b[i]], read. *)
Definition load (b : buffer) (i : nat) : result char :=
  match nth_error b i with
  | Some c => Ok c
  | None => Fault OutOfBoundsRead
  end.

Inductive arg : Type :=
| AStr (b : buffer)
| AInt (z : Z)
| ASize (n : nat)
| AUnsigned (n : nat).

Inductive token : Type :=
| TChar (c : char)
| TString
| TInt
| TSize (width : nat)
| THex (width : nat).

Definition decimal (z : Z) : list char :=
  lit (DecimalString.NilZero.string_of_int (Z.to_int z)).

Definition hexadecimal (n : nat) : list char :=
  lit (HexadecimalString.NilZero.string_of_uint (Nat.to_hex_uint n)).

Definition zero_pad (width : nat) (digits : list char) : list char :=
  repeat "0"%char (width - List.length digits) ++ digits.

Definition digit (c : char) : nat := nat_of_ascii c - 48.

Fixpoint tokens (fmt : list char) : list token :=
  match fmt with
  | [] => []
  | c :: r0 =>
      if negb (Ascii.eqb c "%") then TChar c :: tokens r0
      else
        match r0 with
        | [] => [TChar c]
        | c1 :: r1 =>
            if Ascii.eqb c1 "s" then TString :: tokens r1
            else if Ascii.eqb c1 "d" then TInt :: tokens r1
            else if Ascii.eqb c1 "z" then
              match r1 with
              | c2 :: r2 =>
                  if Ascii.eqb c2 "u" then TSize 0 :: tokens r2
                  else TChar c :: tokens r0
              | [] => TChar c :: tokens r0
              end
            else if Ascii.eqb c1 "0" then
              match r1 with
              | w :: c3 :: r3 =>
                  if Ascii.eqb c3 "x" then THex (digit w) :: tokens r3
                  else if Ascii.eqb c3 "z" then
                    match r3 with
                    | c4 :: r4 =>
                        if Ascii.eqb c4 "u" then TSize (digit w) :: tokens r4
                        else TChar c :: tokens r0
                    | [] => TChar c :: tokens r0
                    end
                  else TChar c :: tokens r0
              | _ => TChar c :: tokens r0
              end
            else TChar c :: tokens r0
        end
  end.

Fixpoint render (ts : list token) (args : list arg) : result (list char) :=
  match ts with
  | [] => Ok []
  | TChar c :: ts' => r <- render ts' args ;; Ok (c :: r)
  | TString :: ts' =>
      match args with
      | AStr b :: args' =>
          s <- cstr b ;; r <- render ts' args' ;; Ok (s ++ r)
      | _ => Fault OutOfBoundsRead
      end
  | TInt :: ts' =>
      match args with
      | AInt z :: args' => r <- render ts' args' ;; Ok (decimal z ++ r)
      | _ => Fault OutOfBoundsRead
      end
  | TSize w :: ts' =>
      match args with
      | ASize n :: args' =>
          r <- render ts' args' ;;
          Ok (zero_pad w (decimal (Z.of_nat n)) ++ r)
      | _ => Fault OutOfBoundsRead
      end
  | THex w :: ts' =>
      match args with
      | AUnsigned n :: args' =>
          r <- render ts' args' ;; Ok (zero_pad w (hexadecimal n) ++ r)
      | _ => Fault OutOfBoundsRead
      end
  end.

(** [argv[i]]. *)
Definition load_arg (argv : list buffer) (i : nat) : result buffer :=
  match nth_error argv i with
  | Some a => Ok a
  | None => Fault OutOfBoundsRead
  end.

Definition vformat (fmt : list char) (args : list arg) : result (list char) :=
  render (tokens fmt) args.

Definition vprintf (fmt : list char) (args : list arg) (stdout : list char)
  : result (list char) :=
  s <- vformat fmt args ;; Ok (stdout ++ s).

End Stdio.

(** The value of an automatic [int] that was never assigned. *)
Definition indeterminate (stack : nat -> char) (off : nat) : Z :=
  Z.of_nat (nat_of_ascii (stack off)).

(** ** Machine integers: [int] with wrap-around *)

Definition wrap32 (z : Z) : Z := ((z + 2 ^ 31) mod 2 ^ 32 - 2 ^ 31)%Z.

Definition int_add (a b : Z) : Z := wrap32 (a + b).
Definition int_sub (a b : Z) : Z := wrap32 (a - b).
Definition int_mul (a b : Z) : Z := wrap32 (a * b).
(** C's [/] truncates toward zero. *)
Definition int_div (a b : Z) : Z := wrap32 (Z.quot a b).

(** An [int] used as a condition: true when it is not zero. *)
Definition truthy (z : Z) : bool := negb (z =? 0)%Z.

(** What [handle_request] leaves behind: its two text buffers and the
    standard output. *)
Record request_state : Type := {
  rs_query : buffer;
  rs_html : buffer;
  rs_stdout : list char
}.

(** ** demo_vuln.c, the vulnerable demo *)

Module Vuln.
Import Libc.

Definition safe_copy (dst src : buffer) (dst_size : nat) : result buffer :=
  if Nat.eqb dst_size 0 then Ok dst
  else
    dst1 <- strncpy dst src (dst_size - 1) ;;
    store dst1 (dst_size - 1) NUL.

Definition compute_score (a b : Z) : Z :=
  let score := int_sub (int_add (int_mul a 3) (int_mul b 2)) (int_div a 2) in
  if (score <? 0)%Z then 0%Z else score.

Definition build_query (out : buffer) (out_size : nat) (user_input : buffer)
  : result buffer :=
  sprintf out (lit "SELECT * FROM users WHERE name = '%s'") [user_input].

Definition render_html (out : buffer) (out_size : nat) (user_input : buffer)
  : result buffer :=
  sprintf out (lit "<div>%s</div>") [user_input].

Definition copy_untrusted (dst src : buffer) : result buffer :=
  strcpy dst src.

Definition copy_untrusted_bytes (dst src : buffer) : result buffer :=
  n <- strlen src ;; memcpy dst src n.

Definition handle_request (stack : nat -> char) (user_input : buffer)
           (stdout : list char) : result request_state :=
  let small_buf := alloca stack 0 8 in
  let query := alloca stack 8 512 in
  let html := alloca stack 520 512 in
  small_buf <- copy_untrusted small_buf user_input ;;
  small_buf <- copy_untrusted_bytes small_buf user_input ;;
  query <- build_query query 512 user_input ;;
  html <- render_html html 512 user_input ;;
  stdout <- printf (lit "Query: %s" ++ [LF]) [query] stdout ;;
  stdout <- printf (lit "HTML: %s" ++ [LF]) [html] stdout ;;
  Ok {| rs_query := query; rs_html := html; rs_stdout := stdout |}.

Definition apply_coupon_after_checkout (paid coupon_applied : Z) : Z :=
  let total := 100%Z in
  let total := if truthy paid then 0%Z else total in
  let total := if truthy coupon_applied then int_sub total 100 else total in
  total.

Definition view_admin_report (is_admin : Z) (stdout : list char)
  : result (list char) :=
  printf (lit "Admin report: all user emails..." ++ [LF]) [] stdout.

(** *** The rest of the file *)

Record User : Type := {
  id : Z;
  name : buffer;
  email : buffer
}.

Definition print_banner (stdout : list char) : result (list char) :=
  printf (lit "=== Demo Vulnerable Program ===" ++ [LF]) [] stdout.

Definition log_info (msg : buffer) (stdout : list char) : result (list char) :=
  printf (lit "[INFO] %s" ++ [LF]) [msg] stdout.

Definition log_warn (msg : buffer) (stdout : list char) : result (list char) :=
  printf (lit "[WARN] %s" ++ [LF]) [msg] stdout.

Definition fill_user (u : User) (id : Z) (name email : buffer) : result User :=
  let (_, u_name, u_email) := u in
  u_name <- safe_copy u_name name 64 ;;
  u_email <- safe_copy u_email email 128 ;;
  Ok (Build_User id u_name u_email).

Definition print_user (u : User) (stdout : list char) : result (list char) :=
  Stdio.vprintf (lit "User{id=%d, name=%s, email=%s}" ++ [LF])
                [Stdio.AInt (id u); Stdio.AStr (name u); Stdio.AStr (email u)]
                stdout.

Fixpoint dump_loop (n i : nat) (buf : buffer) (stdout : list char)
  : result (list char) :=
  match n with
  | O => Ok stdout
  | S m =>
      stdout <- (if Nat.eqb (i mod 16) 0
                 then Stdio.vprintf ([LF] ++ lit "%04zu: ") [Stdio.ASize i] stdout
                 else Ok stdout) ;;
      c <- Stdio.load buf i ;;
      stdout <- Stdio.vprintf (lit "%02x ")
                              [Stdio.AUnsigned (nat_of_ascii c)] stdout ;;
      dump_loop m (S i) buf stdout
  end.

Definition debug_dump_buffer (buf : buffer) (len : nat) (stdout : list char)
  : result (list char) :=
  stdout <- Stdio.vprintf (lit "Buffer dump (%zu bytes):" ++ [LF])
                          [Stdio.ASize len] stdout ;;
  stdout <- dump_loop len 0 buf stdout ;;
  printf [LF] [] stdout.

Definition print_config (stdout : list char) : result (list char) :=
  stdout <- log_info (literal "Loading configuration...") stdout ;;
  log_info (literal "Configuration loaded.") stdout.

(** [for (i = ...; i < count; i++)], at most [fuel] rounds. *)
Fixpoint metrics_loop (fuel : nat) (i count : Z) (stdout : list char)
  : result (list char) :=
  match fuel with
  | O => Ok stdout
  | S f =>
      if (i <? count)%Z then
        stdout <- (if (Z.rem i 5 =? 0)%Z
                   then log_info (literal "Heartbeat") stdout
                   else Ok stdout) ;;
        metrics_loop f (int_add i 1) count stdout
      else Ok stdout
  end.

Definition process_metrics (count : Z) (stdout : list char)
  : result (list char) :=
  metrics_loop (Z.to_nat count) 0 count stdout.

Definition test_users (stack : nat -> char) (stdout : list char)
  : result (list char) :=
  let u1 := Build_User (indeterminate stack 0)
                       (alloca stack 4 64) (alloca stack 68 128) in
  let u2 := Build_User (indeterminate stack 196)
                       (alloca stack 200 64) (alloca stack 264 128) in
  u1 <- fill_user u1 1 (literal "Alice") (literal "alice@example.com") ;;
  u2 <- fill_user u2 2 (literal "Bob") (literal "bob@example.com") ;;
  stdout <- print_user u1 stdout ;;
  print_user u2 stdout.

Fixpoint batch_loop (fuel : nat) (i total : Z) : Z :=
  match fuel with
  | O => total
  | S f =>
      if (i <? 50)%Z
      then batch_loop f (int_add i 1)
                      (int_add total (compute_score i (int_add i 1)))
      else total
  end.

Definition compute_batch (stdout : list char) : result (list char) :=
  let total := batch_loop 50 0 0 in
  Stdio.vprintf (lit "Batch score: %d" ++ [LF]) [Stdio.AInt total] stdout.

Fixpoint report_loop (fuel : nat) (i : Z) (stdout : list char)
  : result (list char) :=
  match fuel with
  | O => Ok stdout
  | S f =>
      if (i <? 10)%Z then
        stdout <- Stdio.vprintf (lit "Line %d: OK" ++ [LF])
                                [Stdio.AInt (int_add i 1)] stdout ;;
        report_loop f (int_add i 1) stdout
      else Ok stdout
  end.

Definition generate_report (title : buffer) (stdout : list char)
  : result (list char) :=
  stdout <- Stdio.vprintf (lit "=== Report: %s ===" ++ [LF])
                          [Stdio.AStr title] stdout ;;
  report_loop 10 0 stdout.

Definition fake_io (stdout : list char) : result (list char) :=
  let buf := lit "demo" ++ repeat NUL 28 in
  n <- strlen buf ;;
  debug_dump_buffer buf n stdout.

Definition print_footer (stdout : list char) : result (list char) :=
  printf (lit "=== End of Demo ===" ++ [LF]) [] stdout.

(** [argv] holds the arguments, the program name first; the standard
    output starts empty. *)
Definition main (stack : nat -> char) (argv : list buffer)
  : result (Z * list char) :=
  let user_input := lit "test" ++ repeat NUL 252 in
  let password_buf := alloca stack 0 32 in
  let fallback_input := literal "guest" in
  let password := literal "P@ssw0rd!" in
  password_buf <- safe_copy password_buf password 32 ;;
  stdout <- print_banner [] ;;
  stdout <- print_config stdout ;;
  stdout <- test_users stack stdout ;;
  stdout <- compute_batch stdout ;;
  stdout <- process_metrics 25 stdout ;;
  stdout <- generate_report (literal "Weekly") stdout ;;
  stdout <- fake_io stdout ;;
  user_input <-
    (if 1 <? List.length argv
     then arg1 <- Stdio.load_arg argv 1 ;; safe_copy user_input arg1 256
     else safe_copy user_input fallback_input 256) ;;
  st <- handle_request stack user_input stdout ;;
  let _ := apply_coupon_after_checkout 1 1 in
  stdout <- view_admin_report 0 (rs_stdout st) ;;
  stdout <- log_warn (literal "Demo completed with potential vulnerabilities.")
                     stdout ;;
  stdout <- print_footer stdout ;;
  Ok (0%Z, stdout).

End Vuln.

(** ** The demo with the Stage 1 fixes applied *)

Module Fixed.
Import Libc.

Definition safe_copy (dst src : buffer) (dst_size : nat) : result buffer :=
  if Nat.eqb dst_size 0 then Ok dst
  else
    dst1 <- strncpy dst src (dst_size - 1) ;;
    store dst1 (dst_size - 1) NUL.

Definition compute_score (a b : Z) : Z :=
  let score := int_sub (int_add (int_mul a 3) (int_mul b 2)) (int_div a 2) in
  if (score <? 0)%Z then 0%Z else score.

Definition build_query (out : buffer) (out_size : nat) : result buffer :=
  safe_copy out (literal "SELECT * FROM users WHERE active = 1") out_size.

Definition render_html (out : buffer) (out_size : nat) : result buffer :=
  safe_copy out (literal "<div>Welcome</div>") out_size.

Definition handle_request (stack : nat -> char) (user_input : buffer)
           (stdout : list char) : result request_state :=
  let query := alloca stack 0 256 in
  let html := alloca stack 256 256 in
  query <- build_query query 256 ;;
  html <- render_html html 256 ;;
  stdout <- printf (lit "Query: %s" ++ [LF]) [query] stdout ;;
  stdout <- printf (lit "HTML: %s" ++ [LF]) [html] stdout ;;
  Ok {| rs_query := query; rs_html := html; rs_stdout := stdout |}.

Definition apply_coupon_after_checkout (paid coupon_applied : Z) : Z :=
  let total := 100%Z in
  let total := if truthy paid then 0%Z else total in
  let total := if truthy coupon_applied then int_sub total 100 else total in
  total.

Definition view_admin_report (is_admin : Z) (stdout : list char)
  : result (list char) :=
  printf (lit "Admin report: all user emails..." ++ [LF]) [] stdout.

(** *** The rest of the file *)

Record User : Type := {
  id : Z;
  name : buffer;
  email : buffer
}.

Definition print_banner (stdout : list char) : result (list char) :=
  printf (lit "=== Demo Program (Stage 1 fixed) ===" ++ [LF]) [] stdout.

Definition log_info (msg : buffer) (stdout : list char) : result (list char) :=
  printf (lit "[INFO] %s" ++ [LF]) [msg] stdout.

Definition log_warn (msg : buffer) (stdout : list char) : result (list char) :=
  printf (lit "[WARN] %s" ++ [LF]) [msg] stdout.

Definition fill_user (u : User) (id : Z) (name email : buffer) : result User :=
  let (_, u_name, u_email) := u in
  u_name <- safe_copy u_name name 64 ;;
  u_email <- safe_copy u_email email 128 ;;
  Ok (Build_User id u_name u_email).

Definition print_user (u : User) (stdout : list char) : result (list char) :=
  Stdio.vprintf (lit "User{id=%d, name=%s, email=%s}" ++ [LF])
                [Stdio.AInt (id u); Stdio.AStr (name u); Stdio.AStr (email u)]
                stdout.

Definition print_config (stdout : list char) : result (list char) :=
  stdout <- log_info (literal "Loading configuration...") stdout ;;
  log_info (literal "Configuration loaded.") stdout.

(** [for (i = ...; i < count; i++)], at most [fuel] rounds. *)
Fixpoint metrics_loop (fuel : nat) (i count : Z) (stdout : list char)
  : result (list char) :=
  match fuel with
  | O => Ok stdout
  | S f =>
      if (i <? count)%Z then
        stdout <- (if (Z.rem i 5 =? 0)%Z
                   then log_info (literal "Heartbeat") stdout
                   else Ok stdout) ;;
        metrics_loop f (int_add i 1) count stdout
      else Ok stdout
  end.

Definition process_metrics (count : Z) (stdout : list char)
  : result (list char) :=
  metrics_loop (Z.to_nat count) 0 count stdout.

Definition test_users (stack : nat -> char) (stdout : list char)
  : result (list char) :=
  let u1 := Build_User (indeterminate stack 0)
                       (alloca stack 4 64) (alloca stack 68 128) in
  let u2 := Build_User (indeterminate stack 196)
                       (alloca stack 200 64) (alloca stack 264 128) in
  u1 <- fill_user u1 1 (literal "Alice") (literal "alice@example.com") ;;
  u2 <- fill_user u2 2 (literal "Bob") (literal "bob@example.com") ;;
  stdout <- print_user u1 stdout ;;
  print_user u2 stdout.

Fixpoint batch_loop (fuel : nat) (i total : Z) : Z :=
  match fuel with
  | O => total
  | S f =>
      if (i <? 50)%Z
      then batch_loop f (int_add i 1)
                      (int_add total (compute_score i (int_add i 1)))
      else total
  end.

Definition compute_batch (stdout : list char) : result (list char) :=
  let total := batch_loop 50 0 0 in
  Stdio.vprintf (lit "Batch score: %d" ++ [LF]) [Stdio.AInt total] stdout.

Fixpoint report_loop (fuel : nat) (i : Z) (stdout : list char)
  : result (list char) :=
  match fuel with
  | O => Ok stdout
  | S f =>
      if (i <? 10)%Z then
        stdout <- Stdio.vprintf (lit "Line %d: OK" ++ [LF])
                                [Stdio.AInt (int_add i 1)] stdout ;;
        report_loop f (int_add i 1) stdout
      else Ok stdout
  end.

Definition generate_report (title : buffer) (stdout : list char)
  : result (list char) :=
  stdout <- Stdio.vprintf (lit "=== Report: %s ===" ++ [LF])
                          [Stdio.AStr title] stdout ;;
  report_loop 10 0 stdout.

Definition print_footer (stdout : list char) : result (list char) :=
  printf (lit "=== End of Demo ===" ++ [LF]) [] stdout.

(** [argv] holds the arguments, the program name first; [app_password] is
    what [getenv] answers for [APP_PASSWORD]; the standard output starts
    empty. *)
Definition main (stack : nat -> char) (argv : list buffer)
           (app_password : option buffer) : result (Z * list char) :=
  let user_input := lit "test" ++ repeat NUL 252 in
  let fallback_input := literal "guest" in
  stdout <-
    (match app_password with
     | None => log_warn (literal "APP_PASSWORD not set.") []
     | Some password =>
         c <- Stdio.load password 0 ;;
         if is_nul c then log_warn (literal "APP_PASSWORD not set.") []
         else Ok []
     end) ;;
  stdout <- print_banner stdout ;;
  stdout <- print_config stdout ;;
  stdout <- test_users stack stdout ;;
  stdout <- compute_batch stdout ;;
  stdout <- process_metrics 25 stdout ;;
  stdout <- generate_report (literal "Weekly") stdout ;;
  user_input <-
    (if 1 <? List.length argv
     then arg1 <- Stdio.load_arg argv 1 ;; safe_copy user_input arg1 256
     else safe_copy user_input fallback_input 256) ;;
  st <- handle_request stack user_input stdout ;;
  let _ := apply_coupon_after_checkout 1 1 in
  stdout <- view_admin_report 0 (rs_stdout st) ;;
  stdout <- log_warn (literal "Demo completed with potential vulnerabilities.")
                     stdout ;;
  stdout <- print_footer stdout ;;
  Ok (0%Z, stdout).

End Fixed.

(** ** The three-stage gate that analyses the demos *)

(** Modelled from the spec: the detection-and-gating pipeline, none of
    whose code accompanies the demos.  The data model follows section 3,
    the stages section 4, the interfaces section 6 and the errors
    section 7.  Confidences are rationals in canonical form, line ranges
    stand for locations inside the one source unit of a run, and real
    time (timeouts, the backoff between retries) is left out. *)
Module Pipeline.

Inductive Verdict : Type := Pass | Block | Indeterminate | Skipped.
Inductive Category : Type := BufferOverflow | Injection | BusinessLogic.
Inductive Severity : Type := Low | Medium | High.
Inductive Stage : Type := Stage1 | Stage2 | Stage3.
Inductive Trend : Type := Increasing | Stable | Decreasing.

Definition all_categories : list Category :=
  [BufferOverflow; Injection; BusinessLogic].

Definition category_rank (c : Category) : nat :=
  match c with
  | BufferOverflow => 0
  | Injection => 1
  | BusinessLogic => 2
  end.

Record Snippet : Type := {
  sn_start : nat;
  sn_end : nat;
  sn_text : string;
  sn_function : option string
}.

Record SourceUnit : Type := {
  su_path : string;
  su_language : string;
  su_text : string;
  su_snippets : list Snippet;
  su_degraded : bool
}.

Record DetectionRule : Type := {
  dr_id : nat;
  dr_category : Category;
  dr_matcher : string -> bool;
  dr_stage : Stage;
  dr_confidence : Qc
}.

Record ClassifierModel : Type := {
  cm_version : nat;
  cm_score : Snippet -> Category -> Qc
}.

Record TemporalModel : Type := {
  tm_version : nat;
  tm_features : SourceUnit -> list Qc;
  tm_forecast : list (list Qc) -> Qc * Trend
}.

Record Finding : Type := {
  f_id : nat;
  f_stage : Stage;
  f_category : Category;
  f_file : string;
  f_line_start : nat;
  f_line_end : nat;
  f_confidence : Qc;
  f_severity : Severity;
  f_rationale : option string
}.

Record StageReport : Type := {
  sr_findings : list Finding;
  sr_verdict : Verdict
}.

Record Forecast : Type := {
  fc_score : Qc;
  fc_trend : Trend;
  fc_low_confidence : bool
}.

Record ForecastReport : Type := {
  fr_forecast : option Forecast;
  fr_verdict : Verdict
}.

Record GateDecision : Type := {
  gd_stage1 : StageReport;
  gd_stage2 : StageReport;
  gd_stage3 : ForecastReport;
  gd_overall : Verdict;
  gd_exit : nat
}.

Record Config : Type := {
  cfg_stage1_only : bool;
  cfg_stage2_only : bool;
  cfg_stage3_only : bool;
  cfg_llm_only : bool;
  cfg_keep : Qc;
  cfg_block : Qc;
  cfg_high_severity : Category -> bool;
  cfg_max_retries : nat;
  cfg_classifier_version : nat;
  cfg_temporal_version : nat
}.

Definition conf_le (a b : Qc) : bool := Qle_bool a b.
Definition conf_lt (a b : Qc) : bool := negb (Qle_bool b a).

Definition in_unit (c : Qc) : bool :=
  (conf_le (Q2Qc 0) c && conf_le c (Q2Qc 1))%bool.

(** *** Ordering by location, then category *)

Definition Key : Type := (nat * nat * nat)%type.

Definition key_compare (a b : Key) : comparison :=
  let '(s1, e1, c1) := a in
  let '(s2, e2, c2) := b in
  match Nat.compare s1 s2 with
  | Eq => match Nat.compare e1 e2 with
          | Eq => Nat.compare c1 c2
          | o => o
          end
  | o => o
  end.

Definition key_lt (a b : Key) : Prop :=
  let '(s1, e1, c1) := a in
  let '(s2, e2, c2) := b in
  s1 < s2 \/ (s1 = s2 /\ (e1 < e2 \/ (e1 = e2 /\ c1 < c2))).

Definition key_le (a b : Key) : bool :=
  match key_compare a b with
  | Gt => false
  | _ => true
  end.

(** *** Stage 1: rule matcher and classifier *)

(** What a strategy reports on a snippet, before ids are given out. *)
Record Detection : Type := {
  d_start : nat;
  d_end : nat;
  d_category : Category;
  d_confidence : Qc
}.

Definition detection_key (d : Detection) : Key :=
  (d_start d, d_end d, category_rank (d_category d)).

Definition finding_key (f : Finding) : Key :=
  (f_line_start f, f_line_end f, category_rank (f_category f)).

Definition is_stage1 (s : Stage) : bool :=
  match s with Stage1 => true | _ => false end.

(** Modelled from the spec: the rule matcher of Stage 1 (section 4.2);
    each matching rule of the Rule Index reports its category at the
    snippet, with the rule's baseline confidence. *)
Definition rule_matcher (rules : list DetectionRule) (s : Snippet)
  : list Detection :=
  map (fun r => {| d_start := sn_start s; d_end := sn_end s;
                   d_category := dr_category r;
                   d_confidence := dr_confidence r |})
      (filter (fun r => (is_stage1 (dr_stage r) && dr_matcher r (sn_text s))%bool)
              rules).

(** Modelled from the spec: the classifier of Stage 1 (section 4.2); a
    probability per category, kept when it reaches the acceptance
    threshold. *)
Definition classifier (cfg : Config) (model : ClassifierModel) (s : Snippet)
  : list Detection :=
  map (fun c => {| d_start := sn_start s; d_end := sn_end s;
                   d_category := c;
                   d_confidence := cm_score model s c |})
      (filter (fun c => conf_le (cfg_keep cfg) (cm_score model s c))
              all_categories).

Definition analyze_known (cfg : Config) (rules : list DetectionRule)
           (model : ClassifierModel) (s : Snippet) : list Detection :=
  rule_matcher rules s ++ classifier cfg model s.

(** Modelled from the spec: the merge policy of Stage 1 (section 4.2);
    of two detections at one (location, category) the one of higher
    confidence is kept. *)
Definition better (a b : Detection) : Detection :=
  if conf_lt (d_confidence b) (d_confidence a) then a else b.

(** Merge [d] into a list kept in location-then-category order. *)
Fixpoint merge_in (d : Detection) (l : list Detection) : list Detection :=
  match l with
  | [] => [d]
  | e :: t =>
      match key_compare (detection_key d) (detection_key e) with
      | Lt => d :: e :: t
      | Eq => better d e :: t
      | Gt => e :: merge_in d t
      end
  end.

Definition merge_all (ds : list Detection) : list Detection :=
  fold_right merge_in [] ds.

Definition severity_of (cfg : Config) (c : Category) : Severity :=
  if cfg_high_severity cfg c then High else Medium.

(** Findings take their ids from the run's id counter, in report order. *)
Fixpoint number (next : nat) (fs : list Finding) : list Finding :=
  match fs with
  | [] => []
  | f :: t =>
      {| f_id := next; f_stage := f_stage f; f_category := f_category f;
         f_file := f_file f; f_line_start := f_line_start f;
         f_line_end := f_line_end f; f_confidence := f_confidence f;
         f_severity := f_severity f; f_rationale := f_rationale f |}
      :: number (S next) t
  end.

Definition known_finding (cfg : Config) (file : string) (d : Detection)
  : Finding :=
  {| f_id := 0; f_stage := Stage1; f_category := d_category d;
     f_file := file; f_line_start := d_start d; f_line_end := d_end d;
     f_confidence := d_confidence d;
     f_severity := severity_of cfg (d_category d);
     f_rationale := None |}.

Definition emit (cfg : Config) (file : string) (next : nat)
           (ds : list Detection) : list Finding :=
  number next (map (known_finding cfg file) ds).

Definition blocks_known (cfg : Config) (f : Finding) : bool :=
  (cfg_high_severity cfg (f_category f)
   && conf_le (cfg_block cfg) (f_confidence f))%bool.

(** Modelled from the spec: the Stage 1 Detector (sections 4.2 and 5).
    [completed] lists the snippets in the order in which the worker pool
    finished them. *)
Definition stage1 (cfg : Config) (rules : list DetectionRule)
           (model : ClassifierModel) (unit : SourceUnit)
           (completed : list Snippet) (next : nat) : StageReport :=
  let fs := emit cfg (su_path unit) next
                 (merge_all (flat_map (analyze_known cfg rules model) completed)) in
  {| sr_findings := fs;
     sr_verdict := if existsb (blocks_known cfg) fs then Block else Pass |}.

(** *** The Reasoning Client and Stage 2 *)

Record Request : Type := {
  rq_snippet : Snippet;
  rq_context : string;
  rq_prompt : string
}.

(** One structured result of the reasoning backend. *)
Record Insight : Type := {
  in_start : nat;
  in_end : nat;
  in_category : Category;
  in_confidence : Qc;
  in_severity : Severity;
  in_rationale : string
}.

Inductive ServiceError : Type := Timeout | AuthFailure | RateLimited.

Inductive Response : Type :=
| Answer (results : list Insight)
| Failure (e : ServiceError).

(** The backend is external and not deterministic: what it answers may
    change from one attempt to the next. *)
Definition ReasoningClient : Type := Request -> nat -> Response.

(** Modelled from the spec: the bounded retries of section 4.3; the
    request is tried again after a failure while retries remain (the
    waiting between attempts is not modelled). *)
Fixpoint ask (client : ReasoningClient) (rq : Request) (attempt retries : nat)
  : Response :=
  match client rq attempt with
  | Answer rs => Answer rs
  | Failure e =>
      match retries with
      | O => Failure e
      | S r => ask client rq (S attempt) r
      end
  end.

Definition flaw_prompt : string :=
  "missing authorization before a sensitive action; state invariants violated by sequential conditional logic; unsafe ordering of operations".

Definition request_for (unit : SourceUnit) (s : Snippet) : Request :=
  {| rq_snippet := s; rq_context := su_text unit; rq_prompt := flaw_prompt |}.

(** The results gathered over the snippets and the failures met. *)
Fixpoint reason_over (client : ReasoningClient) (cfg : Config)
         (unit : SourceUnit) (snippets : list Snippet)
  : list Insight * list ServiceError :=
  match snippets with
  | [] => ([], [])
  | s :: rest =>
      let '(rs, errs) := reason_over client cfg unit rest in
      match ask client (request_for unit s) 0 (cfg_max_retries cfg) with
      | Answer r => (r ++ rs, errs)
      | Failure e => (rs, e :: errs)
      end
  end.

Definition logic_finding (file : string) (i : Insight) : Finding :=
  {| f_id := 0; f_stage := Stage2; f_category := BusinessLogic;
     f_file := file; f_line_start := in_start i; f_line_end := in_end i;
     f_confidence := in_confidence i; f_severity := in_severity i;
     f_rationale := Some (in_rationale i) |}.

Definition semantic_finding (file : string) (i : Insight) : Finding :=
  {| f_id := 0; f_stage := Stage1; f_category := in_category i;
     f_file := file; f_line_start := in_start i; f_line_end := in_end i;
     f_confidence := in_confidence i; f_severity := in_severity i;
     f_rationale := Some (in_rationale i) |}.

Fixpoint insert_by_key (f : Finding) (l : list Finding) : list Finding :=
  match l with
  | [] => [f]
  | g :: t =>
      if key_le (finding_key f) (finding_key g) then f :: g :: t
      else g :: insert_by_key f t
  end.

Definition sort_by_key (fs : list Finding) : list Finding :=
  fold_right insert_by_key [] fs.

Definition is_nil {A : Type} (l : list A) : bool :=
  match l with [] => true | _ => false end.

(** Modelled from the spec: the Stage 2 Detector (section 4.3); a
    failure of the Reasoning Client that outlasts the retries makes the
    verdict [Indeterminate]. *)
Definition stage2 (cfg : Config) (client : ReasoningClient)
           (unit : SourceUnit) (next : nat) : StageReport :=
  let '(rs, errs) := reason_over client cfg unit (su_snippets unit) in
  let fs := number next (sort_by_key (map (logic_finding (su_path unit)) rs)) in
  {| sr_findings := fs;
     sr_verdict := if is_nil errs
                   then (if is_nil fs then Pass else Block)
                   else Indeterminate |}.

(** Modelled from the spec: Stage 1 in the llm_only configuration
    (section 4.2), routed through the Reasoning Client. *)
Definition stage1_llm (cfg : Config) (client : ReasoningClient)
           (unit : SourceUnit) (next : nat) : StageReport :=
  let '(rs, errs) := reason_over client cfg unit (su_snippets unit) in
  let fs := number next (sort_by_key (map (semantic_finding (su_path unit)) rs)) in
  {| sr_findings := fs;
     sr_verdict := if is_nil errs
                   then (if existsb (blocks_known cfg) fs then Block else Pass)
                   else Indeterminate |}.

(** *** Stage 3 *)

(** Modelled from the spec: the Stage 3 Forecaster (section 4.4);
    report-only, and explicitly of low confidence without history. *)
Definition stage3 (tmodel : TemporalModel) (unit : SourceUnit)
           (history : list (list Qc)) : ForecastReport :=
  let '(score, trend) := tm_forecast tmodel (history ++ [tm_features tmodel unit]) in
  {| fr_forecast := Some {| fc_score := score; fc_trend := trend;
                            fc_low_confidence := is_nil history |};
     fr_verdict := Pass |}.

(** *** The Gate Orchestrator *)

Inductive Mode : Type := Full | Stage1Only | Stage2Only | Stage3Only | LlmOnly.

Inductive Phase : Type :=
| READY | STAGE1_RUNNING | STAGE2_RUNNING | STAGE3_RUNNING | DONE.

Inductive FatalError : Type :=
| ModelLoadError | ConfigError | InternalInvariantViolation.

Inductive Outcome : Type :=
| Report (gd : GateDecision)
| Fatal (e : FatalError) (exit : nat).

(** The run context handed to each stage. *)
Record Run : Type := {
  run_cfg : Config;
  run_rules : list DetectionRule;
  run_model : ClassifierModel;
  run_temporal : TemporalModel;
  run_client : ReasoningClient;
  run_unit : SourceUnit;
  run_history : list (list Qc);
  run_completed : list Snippet
}.

Record RunState : Type := {
  st_phase : Phase;
  st_next_id : nat;
  st_stage1 : option StageReport;
  st_stage2 : option StageReport;
  st_stage3 : option ForecastReport
}.

Definition resolve_mode (cfg : Config) : option Mode :=
  match cfg_stage1_only cfg, cfg_stage2_only cfg,
        cfg_stage3_only cfg, cfg_llm_only cfg with
  | false, false, false, false => Some Full
  | true, false, false, false => Some Stage1Only
  | false, true, false, false => Some Stage2Only
  | false, false, true, false => Some Stage3Only
  | false, false, false, true => Some LlmOnly
  | _, _, _, _ => None
  end.

Definition initial : RunState :=
  {| st_phase := READY; st_next_id := 0; st_stage1 := None;
     st_stage2 := None; st_stage3 := None |}.

Definition is_block (v : Verdict) : bool :=
  match v with Block => true | _ => false end.

Definition is_indeterminate (v : Verdict) : bool :=
  match v with Indeterminate => true | _ => false end.

(** Modelled from the spec: the state machine of section 4.5. *)
Definition step (r : Run) (m : Mode) (st : RunState) : RunState :=
  match st_phase st with
  | READY =>
      {| st_phase := match m with
                     | Stage2Only => STAGE2_RUNNING
                     | Stage3Only => STAGE3_RUNNING
                     | _ => STAGE1_RUNNING
                     end;
         st_next_id := st_next_id st; st_stage1 := st_stage1 st;
         st_stage2 := st_stage2 st; st_stage3 := st_stage3 st |}
  | STAGE1_RUNNING =>
      let rep :=
        match m with
        | LlmOnly => stage1_llm (run_cfg r) (run_client r) (run_unit r)
                                (st_next_id st)
        | _ => stage1 (run_cfg r) (run_rules r) (run_model r) (run_unit r)
                      (run_completed r) (st_next_id st)
        end in
      {| st_phase := if is_block (sr_verdict rep) then DONE
                     else match m with
                          | Stage1Only => DONE
                          | _ => STAGE2_RUNNING
                          end;
         st_next_id := st_next_id st + List.length (sr_findings rep);
         st_stage1 := Some rep;
         st_stage2 := st_stage2 st; st_stage3 := st_stage3 st |}
  | STAGE2_RUNNING =>
      let rep := stage2 (run_cfg r) (run_client r) (run_unit r)
                        (st_next_id st) in
      {| st_phase := if is_block (sr_verdict rep) then DONE
                     else match m with
                          | Stage2Only => DONE
                          | _ => STAGE3_RUNNING
                          end;
         st_next_id := st_next_id st + List.length (sr_findings rep);
         st_stage1 := st_stage1 st;
         st_stage2 := Some rep; st_stage3 := st_stage3 st |}
  | STAGE3_RUNNING =>
      {| st_phase := DONE; st_next_id := st_next_id st;
         st_stage1 := st_stage1 st; st_stage2 := st_stage2 st;
         st_stage3 := Some (stage3 (run_temporal r) (run_unit r)
                                   (run_history r)) |}
  | DONE => st
  end.

Fixpoint steps (r : Run) (m : Mode) (n : nat) (st : RunState) : RunState :=
  match n with
  | O => st
  | S k => steps r m k (step r m st)
  end.

Definition skipped_report : StageReport :=
  {| sr_findings := []; sr_verdict := Skipped |}.

Definition skipped_forecast : ForecastReport :=
  {| fr_forecast := None; fr_verdict := Skipped |}.

Definition or_skipped (o : option StageReport) : StageReport :=
  match o with Some rep => rep | None => skipped_report end.

(** Modelled from the spec: the aggregation of section 4.5 and the exit
    status of section 6; 0 when every configured gate passes, the
    number of the stage that blocked, 4 when a stage is indeterminate
    and none blocked. *)
Definition decide (st : RunState) : GateDecision :=
  let r1 := or_skipped (st_stage1 st) in
  let r2 := or_skipped (st_stage2 st) in
  let r3 := match st_stage3 st with Some f => f | None => skipped_forecast end in
  let code :=
    if is_block (sr_verdict r1) then 1
    else if is_block (sr_verdict r2) then 2
    else if is_block (fr_verdict r3) then 3
    else if (is_indeterminate (sr_verdict r1)
             || is_indeterminate (sr_verdict r2))%bool then 4
    else 0 in
  {| gd_stage1 := r1; gd_stage2 := r2; gd_stage3 := r3;
     gd_overall := match code with
                   | 0 => Pass
                   | 4 => Indeterminate
                   | _ => Block
                   end;
     gd_exit := code |}.

Definition all_findings (gd : GateDecision) : list Finding :=
  sr_findings (gd_stage1 gd) ++ sr_findings (gd_stage2 gd).

Definition valid (gd : GateDecision) : bool :=
  forallb (fun f => in_unit (f_confidence f)) (all_findings gd).

(** Modelled from the spec: one run of the pipeline (sections 4.5, 6
    and 7); the fatal errors end it without a report. *)
Definition run (r : Run) : Outcome :=
  if negb (Nat.eqb (cm_version (run_model r))
                   (cfg_classifier_version (run_cfg r))
           && Nat.eqb (tm_version (run_temporal r))
                      (cfg_temporal_version (run_cfg r)))%bool
  then Fatal ModelLoadError 70
  else
    match resolve_mode (run_cfg r) with
    | None => Fatal ConfigError 64
    | Some m =>
        let gd := decide (steps r m 4 initial) in
        if valid gd then Report gd else Fatal InternalInvariantViolation 71
    end.

End Pipeline.

(** ** A sample run over the demos *)

Module Sample.
Import Pipeline.

Definition mentions (needle text : string) : bool :=
  match String.index 0 needle text with
  | Some _ => true
  | None => false
  end.

Definition copy_snippet : Snippet :=
  {| sn_start := 73; sn_end := 75;
     sn_text := "static void copy_untrusted(char *dst, const char *src) { strcpy(dst, src); }";
     sn_function := Some "copy_untrusted"%string |}.

Definition coupon_snippet : Snippet :=
  {| sn_start := 141; sn_end := 150;
     sn_text := "if (paid) { total = 0; } if (coupon_applied) { total = total - 100; }";
     sn_function := Some "apply_coupon_after_checkout"%string |}.

Definition report_snippet : Snippet :=
  {| sn_start := 153; sn_end := 157;
     sn_text := "(void)is_admin; printf(...);";
     sn_function := Some "view_admin_report"%string |}.

Definition vulnerable_unit : SourceUnit :=
  {| su_path := "demo_vuln.c"; su_language := "c"; su_text := "";
     su_snippets := [copy_snippet; coupon_snippet];
     su_degraded := false |}.

Definition fixed_unit : SourceUnit :=
  {| su_path := "demo_fixed.c"; su_language := "c"; su_text := "";
     su_snippets := [coupon_snippet; report_snippet];
     su_degraded := false |}.

Definition rules : list DetectionRule :=
  [ {| dr_id := 1; dr_category := BufferOverflow;
       dr_matcher := mentions "strcpy("; dr_stage := Stage1;
       dr_confidence := Q2Qc (9 # 10) |};
    {| dr_id := 2; dr_category := Injection;
       dr_matcher := mentions "sprintf("; dr_stage := Stage1;
       dr_confidence := Q2Qc (8 # 10) |} ].

Definition model : ClassifierModel :=
  {| cm_version := 1;
     cm_score := fun s c =>
                   match c with
                   | BufferOverflow =>
                       if mentions "strcpy(" (sn_text s)
                       then Q2Qc (6 # 10) else Q2Qc (1 # 10)
                   | _ => Q2Qc (1 # 10)
                   end |}.

Definition temporal : TemporalModel :=
  {| tm_version := 1;
     tm_features := fun _ => [];
     tm_forecast := fun _ => (Q2Qc (1 # 2), Stable) |}.

Definition cfg : Config :=
  {| cfg_stage1_only := false; cfg_stage2_only := false;
     cfg_stage3_only := false; cfg_llm_only := false;
     cfg_keep := Q2Qc (1 # 2); cfg_block := Q2Qc (8 # 10);
     cfg_high_severity := fun c => match c with
                                   | BusinessLogic => false
                                   | _ => true
                                   end;
     cfg_max_retries := 2;
     cfg_classifier_version := 1; cfg_temporal_version := 1 |}.

(** A backend that is never reached, and one that answers. *)
Definition down : ReasoningClient := fun _ _ => Failure Timeout.

Definition up : ReasoningClient :=
  fun rq _ =>
    Answer [ {| in_start := sn_start (rq_snippet rq);
                in_end := sn_end (rq_snippet rq);
                in_category := BusinessLogic;
                in_confidence := Q2Qc (7 # 10);
                in_severity := High;
                in_rationale := "total can become negative" |} ].

Definition a_run (client : ReasoningClient) (unit : SourceUnit)
           (completed : list Snippet) : Run :=
  {| run_cfg := cfg; run_rules := rules; run_model := model;
     run_temporal := temporal; run_client := client; run_unit := unit;
     run_history := []; run_completed := completed |}.

(** A copy sized by its source, a rule that reports it below the blocking
    threshold, and a backend that answers for one function only. *)
Definition bytes_snippet : Snippet :=
  {| sn_start := 77; sn_end := 79;
     sn_text := "static void copy_untrusted_bytes(char *dst, const char *src) { memcpy(dst, src, strlen(src)); }";
     sn_function := Some "copy_untrusted_bytes"%string |}.

Definition mixed_unit : SourceUnit :=
  {| su_path := "demo_vuln.c"; su_language := "c"; su_text := "";
     su_snippets := [bytes_snippet; coupon_snippet; report_snippet];
     su_degraded := false |}.

Definition more_rules : list DetectionRule :=
  rules ++ [ {| dr_id := 3; dr_category := BufferOverflow;
                dr_matcher := mentions "memcpy("; dr_stage := Stage1;
                dr_confidence := Q2Qc (6 # 10) |} ].

Definition flaky : ReasoningClient :=
  fun rq k =>
    if Nat.eqb (sn_start (rq_snippet rq)) 141 then up rq k
    else Failure RateLimited.

Definition with_mode (stage2_only llm_only : bool) : Config :=
  {| cfg_stage1_only := false; cfg_stage2_only := stage2_only;
     cfg_stage3_only := false; cfg_llm_only := llm_only;
     cfg_keep := cfg_keep cfg; cfg_block := cfg_block cfg;
     cfg_high_severity := cfg_high_severity cfg;
     cfg_max_retries := cfg_max_retries cfg;
     cfg_classifier_version := cfg_classifier_version cfg;
     cfg_temporal_version := cfg_temporal_version cfg |}.

Definition mixed_run (stage2_only llm_only : bool) : Run :=
  {| run_cfg := with_mode stage2_only llm_only; run_rules := more_rules;
     run_model := model; run_temporal := temporal; run_client := flaky;
     run_unit := mixed_unit; run_history := [];
     run_completed := [report_snippet; bytes_snippet; coupon_snippet] |}.

End Sample.

(** ** Vocabulary of the statements *)

(** [splice dst i bs]: [dst] with [bs] laid over it from offset [i]. *)
Definition splice (dst : buffer) (i : nat) (bs : list char) : buffer :=
  firstn i dst ++ bs ++ skipn (i + List.length bs) dst.

Definition not_nul (c : char) : Prop := is_nul c = false.

(** What [strncpy] lays down: the string cut at [n] characters, or the
    whole string and terminators up to [n] bytes. *)
Definition strncpy_image (s : list char) (n : nat) : list char :=
  firstn n (s ++ repeat NUL (n - List.length s)).

(** The texts of the demo. *)
Definition query_prefix : list char := lit "SELECT * FROM users WHERE name = '".
Definition query_suffix : list char := lit "'".
Definition static_query : list char := lit "SELECT * FROM users WHERE active = 1".
Definition static_html : list char := lit "<div>Welcome</div>".
Definition admin_report : list char :=
  lit "Admin report: all user emails..." ++ [LF].

(** The state the fixed [handle_request] ends in. *)
Definition fixed_request_state (stdout : list char) : request_state :=
  {| rs_query := static_query ++ repeat NUL (256 - List.length static_query);
     rs_html := static_html ++ repeat NUL (256 - List.length static_html);
     rs_stdout := stdout ++ lit "Query: " ++ static_query ++ [LF]
                         ++ lit "HTML: " ++ static_html ++ [LF] |}.

(** Findings in location-then-category order: strictly, no two at one
    (location, category), or not. *)
Definition strictly_ordered (fs : list Pipeline.Finding) : Prop :=
  Sorted Pipeline.key_lt (map Pipeline.finding_key fs).

Definition ordered (fs : list Pipeline.Finding) : Prop :=
  Sorted (fun a b => Pipeline.key_le a b = true) (map Pipeline.finding_key fs).

(** The Stage 1 report of a run of the rule matcher and classifier. *)
Definition stage1_of (r : Pipeline.Run) : Pipeline.StageReport :=
  Pipeline.stage1 (Pipeline.run_cfg r) (Pipeline.run_rules r)
                  (Pipeline.run_model r) (Pipeline.run_unit r)
                  (Pipeline.run_completed r) 0.

Definition in_range (f : Pipeline.Finding) : Prop :=
  Pipeline.in_unit (Pipeline.f_confidence f) = true.

(** A report is well formed when the findings of each stage are in
    location-then-category order, every confidence lies in [0,1], no id
    occurs twice in the run, and the exit status is 0 exactly when the
    overall verdict is [Pass]. *)
Definition well_formed (gd : Pipeline.GateDecision) : Prop :=
  ordered (Pipeline.sr_findings (Pipeline.gd_stage1 gd))
  /\ ordered (Pipeline.sr_findings (Pipeline.gd_stage2 gd))
  /\ Forall in_range (Pipeline.all_findings gd)
  /\ NoDup (map Pipeline.f_id (Pipeline.all_findings gd))
  /\ (Pipeline.gd_exit gd = 0 <-> Pipeline.gd_overall gd = Pipeline.Pass).

(** The collaborators of a run keep to the invariant of confidences. *)
Definition rules_in_range (rules : list Pipeline.DetectionRule) : Prop :=
  forall rule, In rule rules ->
               Pipeline.in_unit (Pipeline.dr_confidence rule) = true.

Definition model_in_range (model : Pipeline.ClassifierModel) : Prop :=
  forall s c, Pipeline.in_unit (Pipeline.cm_score model s c) = true.

Definition client_in_range (client : Pipeline.ReasoningClient) : Prop :=
  forall rq k rs i,
    client rq k = Pipeline.Answer rs -> In i rs ->
    Pipeline.in_unit (Pipeline.in_confidence i) = true.

(** The Reasoning Client fails on the request for [s] at every attempt
    the retries allow. *)
Definition client_fails (cfg : Pipeline.Config)
           (client : Pipeline.ReasoningClient) (unit : Pipeline.SourceUnit)
           (s : Pipeline.Snippet) : Prop :=
  forall k, k <= Pipeline.cfg_max_retries cfg ->
            exists e, client (Pipeline.request_for unit s) k = Pipeline.Failure e.

(** The markup of the vulnerable demo. *)
Definition html_prefix : list char := lit "<div>".
Definition html_suffix : list char := lit "</div>".

Definition query_text (s : list char) : list char :=
  query_prefix ++ s ++ query_suffix.

Definition html_text (s : list char) : list char :=
  html_prefix ++ s ++ html_suffix.

(** What a request prints. *)
Definition request_lines (query html : list char) : list char :=
  lit "Query: " ++ query ++ [LF] ++ lit "HTML: " ++ html ++ [LF].

(** Lines of the demos' output. *)
Definition user_line (id : Z) (name email : list char) : list char :=
  lit "User{id=" ++ Stdio.decimal id ++ lit ", name=" ++ name
      ++ lit ", email=" ++ email ++ lit "}" ++ [LF].

Definition heartbeat : list char := lit "[INFO] Heartbeat" ++ [LF].

Definition report_line (i : Z) : list char :=
  lit "Line " ++ Stdio.decimal i ++ lit ": OK" ++ [LF].

(** One byte of a buffer dump, with the offset that opens a row of 16. *)
Definition dump_cell (buf : buffer) (i : nat) : list char :=
  (if Nat.eqb (i mod 16) 0
   then LF :: Stdio.zero_pad 4 (Stdio.decimal (Z.of_nat i)) ++ lit ": "
   else [])
  ++ Stdio.zero_pad 2 (Stdio.hexadecimal (nat_of_ascii (nth i buf NUL)))
  ++ lit " ".

Definition dump_text (buf : buffer) (len : nat) : list char :=
  lit "Buffer dump (" ++ Stdio.decimal (Z.of_nat len) ++ lit " bytes):" ++ [LF]
      ++ List.concat (map (dump_cell buf) (seq 0 len)) ++ [LF].

(** What both programs print before the request is handled, after their
    banner. *)
Definition setup_text : list char :=
  lit "[INFO] Loading configuration..." ++ [LF]
  ++ lit "[INFO] Configuration loaded." ++ [LF]
  ++ user_line 1 (lit "Alice") (lit "alice@example.com")
  ++ user_line 2 (lit "Bob") (lit "bob@example.com")
  ++ lit "Batch score: 5625" ++ [LF]
  ++ List.concat (repeat heartbeat 5)
  ++ lit "=== Report: Weekly ===" ++ [LF]
  ++ List.concat (map report_line [1; 2; 3; 4; 5; 6; 7; 8; 9; 10]%Z).

Definition vuln_prologue : list char :=
  lit "=== Demo Vulnerable Program ===" ++ [LF]
  ++ setup_text
  ++ dump_text (lit "demo" ++ repeat NUL 28) 4.

Definition fixed_prologue : list char :=
  lit "=== Demo Program (Stage 1 fixed) ===" ++ [LF] ++ setup_text.

Definition epilogue : list char :=
  admin_report
  ++ lit "[WARN] Demo completed with potential vulnerabilities." ++ [LF]
  ++ lit "=== End of Demo ===" ++ [LF].

(** [APP_PASSWORD] is missing from the environment, or empty. *)
Definition password_unset (app_password : option buffer) : bool :=
  match app_password with
  | None => true
  | Some p =>
      match Libc.cstr p with
      | Ok [] => true
      | _ => false
      end
  end.

Definition password_warning (app_password : option buffer) : list char :=
  if password_unset app_password
  then lit "[WARN] APP_PASSWORD not set." ++ [LF]
  else [].

(** Stage 2 is reached in mode [m]: it is the only stage asked for, or
    Stage 1 ran before it and did not block. *)
Definition stage2_runs (r : Pipeline.Run) (m : Pipeline.Mode) : Prop :=
  match m with
  | Pipeline.Full => Pipeline.sr_verdict (stage1_of r) <> Pipeline.Block
  | Pipeline.LlmOnly =>
      Pipeline.sr_verdict
        (Pipeline.stage1_llm (Pipeline.run_cfg r) (Pipeline.run_client r)
                             (Pipeline.run_unit r) 0) <> Pipeline.Block
  | Pipeline.Stage2Only => True
  | Pipeline.Stage1Only => False
  | Pipeline.Stage3Only => False
  end.

(** What Stage 1 contributes to the report in mode [m]. *)
Definition stage1_report (r : Pipeline.Run) (m : Pipeline.Mode)
  : Pipeline.StageReport :=
  match m with
  | Pipeline.Full => stage1_of r
  | Pipeline.Stage1Only => stage1_of r
  | Pipeline.LlmOnly =>
      Pipeline.stage1_llm (Pipeline.run_cfg r) (Pipeline.run_client r)
                          (Pipeline.run_unit r) 0
  | Pipeline.Stage2Only => Pipeline.skipped_report
  | Pipeline.Stage3Only => Pipeline.skipped_report
  end.

(** What Stage 3 contributes in mode [m] once Stage 2 has let the run
    through. *)
Definition stage3_report (r : Pipeline.Run) (m : Pipeline.Mode)
  : Pipeline.ForecastReport :=
  match m with
  | Pipeline.Stage2Only => Pipeline.skipped_forecast
  | _ => Pipeline.stage3 (Pipeline.run_temporal r) (Pipeline.run_unit r)
                         (Pipeline.run_history r)
  end.

(** * Properties *)

(** ** The library model *)

Section LibcFacts.
Import Libc.

Lemma splice_length dst i bs :
  i + List.length bs <= List.length dst ->
  List.length (splice dst i bs) = List.length dst.
Proof.
  intros H. unfold splice.
  rewrite !length_app, length_firstn, length_skipn. lia.
Qed.

Lemma splice_nil dst i : splice dst i [] = dst.
Proof.
  unfold splice. simpl. rewrite Nat.add_0_r. apply firstn_skipn.
Qed.

Lemma store_spec b : forall i c,
  store b i c =
  if i <? List.length b then Ok (splice b i [c]) else Fault OutOfBoundsWrite.
Proof.
  induction b as [|h t IH]; intros i c.
  - destruct i; reflexivity.
  - destruct i as [|j].
    + reflexivity.
    + simpl store. rewrite IH.
      change (S j <? List.length (h :: t)) with (j <? List.length t).
      destruct (j <? List.length t); reflexivity.
Qed.

Lemma skipn_app_2 (A : Type) (a l : list A) k :
  skipn (List.length a + k) (a ++ l) = skipn k l.
Proof.
  rewrite skipn_app, skipn_all2 by lia.
  replace (List.length a + k - List.length a) with k by lia. reflexivity.
Qed.

Lemma firstn_length_app (A : Type) (a l : list A) :
  firstn (List.length a) (a ++ l) = a.
Proof.
  rewrite firstn_app, Nat.sub_diag, firstn_all. simpl. apply app_nil_r.
Qed.

Lemma splice_cons dst i c t :
  i < List.length dst ->
  splice (splice dst i [c]) (S i) t = splice dst i (c :: t).
Proof.
  intros Hi.
  destruct (nth_split dst c Hi) as (a & b & Hd & Ha).
  set (d := nth i dst c) in Hd. clearbody d. subst dst i. clear Hi.
  unfold splice. simpl List.length.
  rewrite firstn_length_app.
  assert (E2 : skipn (List.length a + 1) (a ++ d :: b) = b)
    by (rewrite skipn_app_2; reflexivity).
  rewrite E2.
  assert (E3 : firstn (S (List.length a)) (a ++ [c] ++ b) = a ++ [c]).
  { replace (S (List.length a)) with (List.length (a ++ [c]))
      by (rewrite length_app; simpl; lia).
    rewrite app_assoc. apply firstn_length_app. }
  rewrite E3.
  assert (E4 : skipn (S (List.length a) + List.length t) (a ++ [c] ++ b)
               = skipn (List.length t) b).
  { replace (S (List.length a) + List.length t)
      with (List.length a + S (List.length t)) by lia.
    rewrite skipn_app_2. reflexivity. }
  rewrite E4.
  assert (E5 : skipn (List.length a + S (List.length t)) (a ++ d :: b)
               = skipn (List.length t) b)
    by (rewrite skipn_app_2; reflexivity).
  rewrite E5. rewrite <- app_assoc. reflexivity.
Qed.

Lemma write_at_spec bs : forall dst i,
  i <= List.length dst ->
  write_at dst i bs =
  if i + List.length bs <=? List.length dst
  then Ok (splice dst i bs) else Fault OutOfBoundsWrite.
Proof.
  induction bs as [|c t IH]; intros dst i Hi.
  - simpl. rewrite Nat.add_0_r.
    destruct (Nat.leb_spec i (List.length dst)); [|lia].
    now rewrite splice_nil.
  - simpl write_at. rewrite store_spec.
    destruct (Nat.ltb_spec i (List.length dst)) as [Hlt|Hge].
    + simpl bind. rewrite IH by (rewrite splice_length; simpl; lia).
      rewrite splice_length by (simpl; lia).
      simpl List.length.
      replace (i + S (List.length t)) with (S i + List.length t) by lia.
      destruct (S i + List.length t <=? List.length dst); [|reflexivity].
      now rewrite splice_cons.
    + simpl bind. simpl List.length.
      destruct (Nat.leb_spec (i + S (List.length t)) (List.length dst)); [lia|].
      reflexivity.
Qed.

Lemma cstr_inv b : forall s,
  cstr b = Ok s -> exists rest, b = s ++ NUL :: rest /\ Forall not_nul s.
Proof.
  induction b as [|c t IH]; intros s H; simpl in H.
  - discriminate.
  - destruct (is_nul c) eqn:E.
    + injection H as <-. exists t. split; [|constructor].
      unfold is_nul in E. apply Ascii.eqb_eq in E. now subst.
    + destruct (cstr t) as [r|f] eqn:Er; simpl in H; [|discriminate].
      injection H as <-.
      destruct (IH r eq_refl) as (rest & -> & Hall).
      exists rest. split; [reflexivity|]. now constructor.
Qed.

Lemma cstr_app s : forall rest,
  Forall not_nul s -> cstr (s ++ NUL :: rest) = Ok s.
Proof.
  induction s as [|c t IH]; intros rest H.
  - reflexivity.
  - inversion H as [|? ? Hc Ht]; subst. simpl. rewrite Hc.
    now rewrite IH.
Qed.

Lemma strlen_cstr b : forall s, cstr b = Ok s -> strlen b = Ok (List.length s).
Proof.
  induction b as [|c t IH]; intros s H; simpl in *.
  - discriminate.
  - destruct (is_nul c).
    + now injection H as <-.
    + destruct (cstr t) as [r|f]; simpl in H; [|discriminate].
      injection H as <-. now rewrite (IH r eq_refl).
Qed.

Lemma strcpy_at_write src : forall s dst i,
  cstr src = Ok s -> strcpy_at dst i src = write_at dst i (s ++ [NUL]).
Proof.
  induction src as [|c t IH]; intros s dst i H; simpl in H.
  - discriminate.
  - simpl strcpy_at. destruct (is_nul c) eqn:E.
    + injection H as <-. simpl.
      unfold is_nul in E. apply Ascii.eqb_eq in E. subst c.
      destruct (store dst i NUL); reflexivity.
    + destruct (cstr t) as [r|f] eqn:Er; simpl in H; [|discriminate].
      injection H as <-. simpl.
      destruct (store dst i c); simpl; [|reflexivity].
      now apply IH.
Qed.

Lemma memcpy_at_write n : forall src dst i,
  n <= List.length src ->
  memcpy_at dst i src n = write_at dst i (firstn n src).
Proof.
  induction n as [|m IH]; intros src dst i H.
  - now rewrite firstn_0.
  - destruct src as [|c t]; simpl in H; [lia|].
    rewrite firstn_cons. simpl.
    destruct (store dst i c); simpl; [|reflexivity].
    apply IH. lia.
Qed.

Lemma memset_at_write n : forall dst i c,
  memset_at dst i c n = write_at dst i (repeat c n).
Proof.
  induction n as [|m IH]; intros dst i c.
  - reflexivity.
  - simpl. destruct (store dst i c); simpl; [|reflexivity]. apply IH.
Qed.

Lemma strncpy_at_write n : forall src s dst i,
  cstr src = Ok s ->
  strncpy_at dst i src n = write_at dst i (strncpy_image s n).
Proof.
  induction n as [|m IH]; intros src s dst i H.
  - reflexivity.
  - destruct src as [|c t]; simpl in H; [discriminate|].
    simpl strncpy_at. destruct (is_nul c) eqn:E.
    + injection H as <-.
      unfold is_nul in E. apply Ascii.eqb_eq in E. subst c.
      unfold strncpy_image. simpl List.length. rewrite Nat.sub_0_r.
      change ([] ++ repeat NUL (S m)) with (repeat NUL (S m)).
      rewrite firstn_all2 by (rewrite repeat_length; lia).
      simpl repeat. simpl write_at.
      destruct (store dst i NUL); simpl; [|reflexivity].
      apply memset_at_write.
    + destruct (cstr t) as [r|f] eqn:Er; simpl in H; [|discriminate].
      injection H as <-.
      unfold strncpy_image. simpl.
      destruct (store dst i c); simpl; [|reflexivity].
      now apply IH.
Qed.

Lemma strncpy_image_length s n : List.length (strncpy_image s n) = n.
Proof.
  unfold strncpy_image.
  rewrite length_firstn, length_app, repeat_length. lia.
Qed.

Lemma firstn_cstr b s : cstr b = Ok s -> firstn (List.length s) b = s.
Proof.
  intros H. destruct (cstr_inv _ _ H) as (rest & -> & _).
  rewrite firstn_app, Nat.sub_diag, firstn_all. simpl.
  now rewrite app_nil_r.
Qed.

Lemma cstr_length b s : cstr b = Ok s -> List.length s < List.length b.
Proof.
  intros H. destruct (cstr_inv _ _ H) as (rest & -> & _).
  rewrite length_app. simpl. lia.
Qed.

Lemma cstr_splice dst t :
  Forall not_nul t ->
  cstr (splice dst 0 (t ++ [NUL])) = Ok t.
Proof.
  intros H. unfold splice.
  change (firstn 0 dst) with (@nil char). rewrite app_nil_l.
  rewrite <- app_assoc.
  change ([NUL] ++ skipn (0 + List.length (t ++ [NUL])) dst)
    with (NUL :: skipn (0 + List.length (t ++ [NUL])) dst).
  now apply cstr_app.
Qed.

Lemma alloca_length stack off n : List.length (alloca stack off n) = n.
Proof. unfold alloca. now rewrite length_map, length_seq. Qed.

End LibcFacts.

(** ** The copies of the vulnerable demo *)

Section Copies.
Import Libc.

Lemma copy_untrusted_spec dst src s :
  cstr src = Ok s ->
  Vuln.copy_untrusted dst src =
  if List.length s <? List.length dst
  then Ok (splice dst 0 (s ++ [NUL])) else Fault OutOfBoundsWrite.
Proof.
  intros H. unfold Vuln.copy_untrusted, strcpy.
  rewrite (strcpy_at_write _ _ dst 0 H), write_at_spec by lia.
  rewrite length_app. simpl.
  destruct (Nat.leb_spec (List.length s + 1) (List.length dst));
    destruct (Nat.ltb_spec (List.length s) (List.length dst));
    try lia; reflexivity.
Qed.

Lemma copy_untrusted_bytes_spec dst src s :
  cstr src = Ok s ->
  Vuln.copy_untrusted_bytes dst src =
  if List.length s <=? List.length dst
  then Ok (splice dst 0 s) else Fault OutOfBoundsWrite.
Proof.
  intros H. unfold Vuln.copy_untrusted_bytes, memcpy.
  rewrite (strlen_cstr _ _ H). simpl bind.
  rewrite memcpy_at_write by (pose proof (cstr_length _ _ H); lia).
  rewrite (firstn_cstr _ _ H), write_at_spec by lia.
  reflexivity.
Qed.

(** The bare [strcpy] fits a string of 7 characters in 8 bytes and no
    longer one; the [memcpy] fits 8 characters, leaving no terminator. *)
Lemma copy_untrusted_fits stack src s :
  cstr src = Ok s -> List.length s < 8 ->
  Vuln.copy_untrusted (alloca stack 0 8) src
  = Ok (splice (alloca stack 0 8) 0 (s ++ [NUL])).
Proof.
  intros H Hl. rewrite (copy_untrusted_spec _ _ _ H), alloca_length.
  destruct (Nat.ltb_spec (List.length s) 8); [reflexivity|lia].
Qed.

Lemma copy_untrusted_bytes_fits stack src s :
  cstr src = Ok s -> List.length s <= 8 ->
  Vuln.copy_untrusted_bytes (alloca stack 0 8) src
  = Ok (splice (alloca stack 0 8) 0 s).
Proof.
  intros H Hl. rewrite (copy_untrusted_bytes_spec _ _ _ H), alloca_length.
  destruct (Nat.leb_spec (List.length s) 8); [reflexivity|lia].
Qed.

(** C1: in the vulnerable demo, a [user_input] of 8 characters or more
    makes [handle_request] write past the end of its 8-byte [small_buf]:
    the bare [strcpy] of [copy_untrusted] faults on the write, so does
    the whole of [handle_request], and the [memcpy] of
    [copy_untrusted_bytes], sized by the source alone, faults exactly from
    9 characters on. *)
Theorem handle_request_overflows :
  forall (stack : nat -> char) (user_input : buffer) (s stdout : list char),
    cstr user_input = Ok s ->
    8 <= List.length s ->
    Vuln.copy_untrusted (alloca stack 0 8) user_input = Fault OutOfBoundsWrite
    /\ (Vuln.copy_untrusted_bytes (alloca stack 0 8) user_input
        = Fault OutOfBoundsWrite <-> 9 <= List.length s)
    /\ Vuln.handle_request stack user_input stdout = Fault OutOfBoundsWrite.
Proof.
  intros stack user_input s stdout H Hl.
  assert (E : Vuln.copy_untrusted (alloca stack 0 8) user_input
              = Fault OutOfBoundsWrite).
  { rewrite (copy_untrusted_spec _ _ _ H), alloca_length.
    destruct (Nat.ltb_spec (List.length s) 8); [lia|reflexivity]. }
  split; [exact E|]. split.
  - rewrite (copy_untrusted_bytes_spec _ _ _ H), alloca_length.
    destruct (Nat.leb_spec (List.length s) 8); split; intros; try lia;
      try discriminate; reflexivity.
  - unfold Vuln.handle_request. rewrite E. reflexivity.
Qed.

Lemma handle_request_overflows_witness :
  cstr (literal "AAAAAAAA") = Ok (lit "AAAAAAAA")
  /\ 8 <= List.length (lit "AAAAAAAA")
  /\ Vuln.handle_request (fun _ => NUL) (literal "AAAAAAAA") []
     = Fault OutOfBoundsWrite.
Proof.
  split; [reflexivity|]. split; [simpl; lia|].
  apply (handle_request_overflows (fun _ => NUL) (literal "AAAAAAAA")
                                  (lit "AAAAAAAA") []);
    [reflexivity | simpl; lia].
Defined.

End Copies.

(** ** The query of the vulnerable demo *)

Section Query.
Import Libc.

Lemma format_query user_input s :
  cstr user_input = Ok s ->
  format (lit "SELECT * FROM users WHERE name = '%s'") [user_input]
  = Ok (query_prefix ++ s ++ query_suffix).
Proof.
  intros H. cbn -[cstr]. rewrite H. reflexivity.
Qed.

Lemma query_prefix_not_nul : Forall not_nul query_prefix.
Proof. repeat constructor. Qed.

Lemma build_query_spec out out_size user_input s :
  cstr user_input = Ok s ->
  Vuln.build_query out out_size user_input =
  if List.length (query_prefix ++ s ++ query_suffix) <? List.length out
  then Ok (splice out 0 ((query_prefix ++ s ++ query_suffix) ++ [NUL]))
  else Fault OutOfBoundsWrite.
Proof.
  intros H. unfold Vuln.build_query, sprintf.
  rewrite (format_query _ _ H). unfold bind.
  rewrite write_at_spec by lia.
  rewrite (length_app _ [NUL]). simpl (List.length [NUL]).
  set (n := List.length (query_prefix ++ s ++ query_suffix)).
  destruct (Nat.leb_spec (0 + (n + 1)) (List.length out));
    destruct (Nat.ltb_spec n (List.length out)); try lia; reflexivity.
Qed.

(** C3: [build_query] of the vulnerable demo writes the fixed text
    [SELECT * FROM users WHERE name = '], then [user_input] as it is, then
    a closing quote; no character of [user_input] is escaped or dropped.
    [out] has room for the text and its terminator; [out_size] plays no
    part. *)
Theorem build_query_interpolates :
  forall (out : buffer) (out_size : nat) (user_input : buffer) (s : list char),
    cstr user_input = Ok s ->
    List.length (query_prefix ++ s ++ query_suffix) < List.length out ->
    exists out',
      Vuln.build_query out out_size user_input = Ok out'
      /\ out' = splice out 0 ((query_prefix ++ s ++ query_suffix) ++ [NUL])
      /\ cstr out' = Ok (query_prefix ++ s ++ query_suffix).
Proof.
  intros out out_size user_input s H Hfit.
  eexists. split; [|split; [reflexivity|]].
  - rewrite (build_query_spec _ _ _ _ H).
    destruct (Nat.ltb_spec (List.length (query_prefix ++ s ++ query_suffix))
                           (List.length out)); [reflexivity|lia].
  - apply cstr_splice.
    destruct (cstr_inv _ _ H) as (rest & _ & Hs).
    apply Forall_app. split; [apply query_prefix_not_nul|].
    apply Forall_app. split; [exact Hs|]. repeat constructor.
Qed.

Lemma build_query_interpolates_witness :
  cstr (literal "x' OR '1'='1") = Ok (lit "x' OR '1'='1")
  /\ cstr (match Vuln.build_query (repeat NUL 64) 64 (literal "x' OR '1'='1")
           with Ok b => b | Fault _ => [] end)
     = Ok (lit "SELECT * FROM users WHERE name = 'x' OR '1'='1'").
Proof.
  split; [reflexivity|].
  destruct (build_query_interpolates (repeat NUL 64) 64
              (literal "x' OR '1'='1") (lit "x' OR '1'='1"))
    as (out' & E & _ & C); [reflexivity | simpl; lia |].
  rewrite E. exact C.
Defined.

(** With no room for the text the same call faults: nothing in
    [build_query] looks at [out_size]. *)
Lemma build_query_unbounded out out_size user_input s :
  cstr user_input = Ok s ->
  List.length out <= List.length (query_prefix ++ s ++ query_suffix) ->
  Vuln.build_query out out_size user_input = Fault OutOfBoundsWrite.
Proof.
  intros H Hl. rewrite (build_query_spec _ _ _ _ H).
  destruct (Nat.ltb_spec (List.length (query_prefix ++ s ++ query_suffix))
                         (List.length out)); [lia|reflexivity].
Qed.

End Query.

(** ** [safe_copy] *)

Section SafeCopy.
Import Libc.

Lemma fixed_safe_copy_eq dst src dst_size :
  Fixed.safe_copy dst src dst_size = Vuln.safe_copy dst src dst_size.
Proof. reflexivity. Qed.

Lemma strncpy_image_split s k :
  strncpy_image s k = firstn k s ++ repeat NUL (k - List.length s).
Proof.
  unfold strncpy_image. rewrite firstn_app.
  f_equal. apply firstn_all2. rewrite repeat_length. lia.
Qed.

Lemma repeat_snoc_cons (A : Type) (x : A) n (l : list A) :
  repeat x n ++ x :: l = x :: repeat x n ++ l.
Proof.
  induction n as [|n IH]; simpl; [reflexivity|]. now rewrite IH.
Qed.

Lemma Forall_firstn_keep (A : Type) (P : A -> Prop) n : forall l : list A,
  Forall P l -> Forall P (firstn n l).
Proof.
  induction n as [|n IH]; intros l H; [rewrite firstn_0; constructor|].
  destruct H as [|x l Hx Hl]; [constructor|].
  rewrite firstn_cons. constructor; [exact Hx|now apply IH].
Qed.

Lemma safe_copy_spec dst src s dst_size :
  cstr src = Ok s ->
  0 < dst_size ->
  dst_size <= List.length dst ->
  Vuln.safe_copy dst src dst_size
  = Ok (strncpy_image s (dst_size - 1) ++ NUL :: skipn dst_size dst).
Proof.
  intros H Hpos Hle. unfold Vuln.safe_copy, strncpy.
  destruct dst_size as [|k]; [lia|].
  change (S k =? 0) with false. cbv iota.
  replace (S k - 1) with k by lia.
  rewrite (strncpy_at_write k _ _ dst 0 H), write_at_spec by lia.
  pose proof (strncpy_image_length s k) as Hk.
  rewrite Hk. simpl (0 + k).
  destruct (Nat.leb_spec k (List.length dst)); [|lia].
  unfold bind. rewrite store_spec.
  assert (Hs : splice dst 0 (strncpy_image s k)
               = strncpy_image s k ++ skipn k dst).
  { unfold splice. rewrite Hk. reflexivity. }
  rewrite Hs.
  assert (Hlen : List.length (strncpy_image s k ++ skipn k dst)
                 = List.length dst)
    by (rewrite length_app, length_skipn; lia).
  rewrite Hlen.
  destruct (Nat.ltb_spec k (List.length dst)); [|lia].
  f_equal. unfold splice.
  rewrite <- Hk at 1. rewrite firstn_length_app.
  simpl (List.length [NUL]).
  rewrite <- Hk at 2. rewrite skipn_app_2.
  rewrite skipn_skipn. simpl. reflexivity.
Qed.

(** Told a size that [dst] does not have, [safe_copy] writes past its
    end. *)
Lemma safe_copy_oversized dst src s dst_size :
  cstr src = Ok s ->
  List.length dst < dst_size ->
  Vuln.safe_copy dst src dst_size = Fault OutOfBoundsWrite.
Proof.
  intros H Hlt. unfold Vuln.safe_copy, strncpy.
  destruct dst_size as [|k]; [lia|].
  change (S k =? 0) with false. cbv iota.
  replace (S k - 1) with k by lia.
  rewrite (strncpy_at_write k _ _ dst 0 H), write_at_spec by lia.
  pose proof (strncpy_image_length s k) as Hk.
  rewrite Hk. simpl (0 + k).
  destruct (Nat.leb_spec k (List.length dst)); [|reflexivity].
  unfold bind. rewrite store_spec, splice_length by lia.
  destruct (Nat.ltb_spec k (List.length dst)); [lia|reflexivity].
Qed.

(** C8: [safe_copy] with [dst_size = 0] returns at once and leaves [dst]
    as it was; with [0 < dst_size] and [dst] of at least [dst_size] bytes,
    it leaves in [dst] a terminated string of at most [dst_size - 1]
    characters, the byte at [dst_size - 1] being the terminator; that
    string is [src] cut at [dst_size - 1] characters, so it is [src]
    itself when [src] is shorter than [dst_size].  The same holds of both
    demos. *)
Theorem safe_copy_postcondition :
  (forall dst src : buffer,
      Vuln.safe_copy dst src 0 = Ok dst /\ Fixed.safe_copy dst src 0 = Ok dst)
  /\
  (forall (dst src : buffer) (s : list char) (dst_size : nat),
      cstr src = Ok s ->
      0 < dst_size ->
      dst_size <= List.length dst ->
      exists (dst' : buffer) (t : list char),
        Vuln.safe_copy dst src dst_size = Ok dst'
        /\ Fixed.safe_copy dst src dst_size = Ok dst'
        /\ List.length dst' = List.length dst
        /\ nth_error dst' (dst_size - 1) = Some NUL
        /\ cstr dst' = Ok t
        /\ List.length t <= dst_size - 1
        /\ t = firstn (dst_size - 1) s
        /\ (List.length s < dst_size -> t = s)
        /\ skipn dst_size dst' = skipn dst_size dst).
Proof.
  split.
  - intros dst src. split; reflexivity.
  - intros dst src s n H Hpos Hle.
    pose proof (strncpy_image_length s (n - 1)) as Hk.
    exists (strncpy_image s (n - 1) ++ NUL :: skipn n dst), (firstn (n - 1) s).
    split; [now apply safe_copy_spec|].
    split; [rewrite fixed_safe_copy_eq; now apply safe_copy_spec|].
    split.
    { rewrite length_app. simpl. rewrite Hk, length_skipn. lia. }
    split.
    { rewrite nth_error_app2 by lia. rewrite Hk, Nat.sub_diag. reflexivity. }
    split.
    { rewrite strncpy_image_split, <- app_assoc, repeat_snoc_cons.
      apply cstr_app. apply Forall_firstn_keep.
      now destruct (cstr_inv _ _ H) as (rest & _ & Hs). }
    split.
    { rewrite length_firstn. lia. }
    split; [reflexivity|].
    split.
    { intros Hlt. apply firstn_all2. lia. }
    replace n with (List.length (strncpy_image s (n - 1)) + 1) at 1 by lia.
    rewrite skipn_app_2. reflexivity.
Qed.

Lemma safe_copy_postcondition_witness :
  cstr (literal "Alice") = Ok (lit "Alice")
  /\ 0 < 4
  /\ 4 <= List.length (lit "xxxxxx")
  /\ exists (dst' : buffer) (t : list char),
        Vuln.safe_copy (lit "xxxxxx") (literal "Alice") 4 = Ok dst'
        /\ Fixed.safe_copy (lit "xxxxxx") (literal "Alice") 4 = Ok dst'
        /\ List.length dst' = List.length (lit "xxxxxx")
        /\ nth_error dst' (4 - 1) = Some NUL
        /\ cstr dst' = Ok t
        /\ List.length t <= 4 - 1
        /\ t = firstn (4 - 1) (lit "Alice")
        /\ (List.length (lit "Alice") < 4 -> t = lit "Alice")
        /\ skipn 4 dst' = skipn 4 (lit "xxxxxx").
Proof.
  split; [reflexivity|]. split; [lia|]. split; [simpl; lia|].
  apply (proj2 safe_copy_postcondition (lit "xxxxxx") (literal "Alice")
               (lit "Alice") 4); [reflexivity | lia | simpl; lia].
Defined.

Example safe_copy_truncates :
  Vuln.safe_copy (lit "xxxxxx") (literal "Alice") 4
  = Ok (lit "Ali" ++ NUL :: lit "xx").
Proof. reflexivity. Qed.

Example safe_copy_pads :
  Vuln.safe_copy (lit "xxxxxx") (literal "Al") 5
  = Ok (lit "Al" ++ [NUL; NUL; NUL] ++ lit "x").
Proof. reflexivity. Qed.

End SafeCopy.

(** ** The remediated request handler *)

Section FixedRequest.
Import Libc.

Lemma fixed_build_query stack :
  Fixed.build_query (alloca stack 0 256) 256
  = Ok (static_query ++ repeat NUL (256 - List.length static_query)).
Proof.
  unfold Fixed.build_query. rewrite fixed_safe_copy_eq.
  rewrite (safe_copy_spec _ (literal "SELECT * FROM users WHERE active = 1")
                          static_query 256 eq_refl)
    by (rewrite ?alloca_length; lia).
  rewrite strncpy_image_split.
  rewrite skipn_all2 by (rewrite alloca_length; lia).
  reflexivity.
Qed.

Lemma fixed_render_html stack :
  Fixed.render_html (alloca stack 256 256) 256
  = Ok (static_html ++ repeat NUL (256 - List.length static_html)).
Proof.
  unfold Fixed.render_html. rewrite fixed_safe_copy_eq.
  rewrite (safe_copy_spec _ (literal "<div>Welcome</div>")
                          static_html 256 eq_refl)
    by (rewrite ?alloca_length; lia).
  rewrite strncpy_image_split.
  rewrite skipn_all2 by (rewrite alloca_length; lia).
  reflexivity.
Qed.

Lemma printf_query b s stdout :
  cstr b = Ok s ->
  printf (lit "Query: %s" ++ [LF]) [b] stdout
  = Ok (stdout ++ lit "Query: " ++ s ++ [LF]).
Proof.
  intros H. unfold printf.
  assert (E : format (lit "Query: %s" ++ [LF]) [b]
              = Ok (lit "Query: " ++ s ++ [LF]))
    by (cbn -[cstr]; rewrite H; reflexivity).
  rewrite E. reflexivity.
Qed.

Lemma printf_html b s stdout :
  cstr b = Ok s ->
  printf (lit "HTML: %s" ++ [LF]) [b] stdout
  = Ok (stdout ++ lit "HTML: " ++ s ++ [LF]).
Proof.
  intros H. unfold printf.
  assert (E : format (lit "HTML: %s" ++ [LF]) [b]
              = Ok (lit "HTML: " ++ s ++ [LF]))
    by (cbn -[cstr]; rewrite H; reflexivity).
  rewrite E. reflexivity.
Qed.

Lemma fixed_handle_request_spec stack user_input stdout :
  Fixed.handle_request stack user_input stdout
  = Ok (fixed_request_state stdout).
Proof.
  unfold Fixed.handle_request.
  rewrite fixed_build_query. unfold bind at 1.
  rewrite fixed_render_html. unfold bind at 1.
  rewrite (printf_query _ static_query) by reflexivity. unfold bind at 1.
  rewrite (printf_html _ static_html) by reflexivity. unfold bind.
  unfold fixed_request_state. rewrite <- !app_assoc. reflexivity.
Qed.

(** C4: in the demo with the Stage 1 fixes, what [handle_request] leaves
    in [query] and [html], and what it prints, is the same for any two
    [user_input] (and whatever the stack held): the query is the static
    text [SELECT * FROM users WHERE active = 1] and the html is
    [<div>Welcome</div>]. *)
Theorem fixed_handle_request_noninterference :
  forall (stack1 stack2 : nat -> char) (input1 input2 : buffer)
         (stdout : list char),
    Fixed.handle_request stack1 input1 stdout
    = Fixed.handle_request stack2 input2 stdout
    /\ exists st : request_state,
        Fixed.handle_request stack1 input1 stdout = Ok st
        /\ cstr (rs_query st) = Ok static_query
        /\ cstr (rs_html st) = Ok static_html
        /\ List.length (rs_query st) = 256
        /\ List.length (rs_html st) = 256
        /\ rs_stdout st = stdout ++ lit "Query: " ++ static_query ++ [LF]
                                 ++ lit "HTML: " ++ static_html ++ [LF].
Proof.
  intros stack1 stack2 input1 input2 stdout.
  rewrite !fixed_handle_request_spec. split; [reflexivity|].
  exists (fixed_request_state stdout).
  repeat split; reflexivity.
Qed.

End FixedRequest.

(** ** Scores, coupons and the admin report *)

Section BusinessLogic.
Import Libc.
Local Open Scope Z_scope.

Lemma wrap32_range z : - 2 ^ 31 <= wrap32 z < 2 ^ 31.
Proof.
  unfold wrap32.
  pose proof (Z.mod_pos_bound (z + 2 ^ 31) (2 ^ 32) eq_refl). lia.
Qed.

Lemma wrap32_small z : - 2 ^ 31 <= z < 2 ^ 31 -> wrap32 z = z.
Proof.
  intros H. unfold wrap32. rewrite Z.mod_small; lia.
Qed.

(** C9: [compute_score] never returns a negative value, for all [int]
    arguments, the arithmetic wrapping modulo 2^32; the same holds of
    both demos, and the value is an [int]. *)
Theorem compute_score_nonnegative :
  forall a b : Z,
    0 <= Vuln.compute_score a b < 2 ^ 31
    /\ 0 <= Fixed.compute_score a b < 2 ^ 31.
Proof.
  intros a b.
  assert (H : 0 <= Vuln.compute_score a b < 2 ^ 31).
  { unfold Vuln.compute_score.
    set (score := int_sub (int_add (int_mul a 3) (int_mul b 2)) (int_div a 2)).
    assert (Hr : - 2 ^ 31 <= score < 2 ^ 31) by apply wrap32_range.
    cbv zeta. destruct (Z.ltb_spec score 0); lia. }
  split; [exact H|exact H].
Qed.

(** Where nothing wraps the score is the plain formula, clamped at 0. *)
Lemma compute_score_plain a b :
  0 <= a <= 1000000 -> 0 <= b <= 1000000 ->
  Vuln.compute_score a b = a * 3 + b * 2 - Z.quot a 2.
Proof.
  intros Ha Hb. unfold Vuln.compute_score, int_sub, int_add, int_mul, int_div.
  assert (Hq : 0 <= Z.quot a 2 <= a).
  { split; [apply Z.quot_pos; lia|].
    apply Z.quot_le_upper_bound; lia. }
  rewrite !(wrap32_small (a * 3)), !(wrap32_small (b * 2)),
          !(wrap32_small (Z.quot a 2)) by lia.
  rewrite !(wrap32_small (a * 3 + b * 2)) by lia.
  rewrite !(wrap32_small (a * 3 + b * 2 - Z.quot a 2)) by lia.
  destruct (Z.ltb_spec (a * 3 + b * 2 - Z.quot a 2) 0); lia.
Qed.

(** C2: [apply_coupon_after_checkout] called with [paid = 1] and
    [coupon_applied = 1] returns -100, a negative total, in the vulnerable
    demo and in the demo with the Stage 1 fixes. *)
Theorem coupon_after_checkout_negative :
  Vuln.apply_coupon_after_checkout 1 1 = -100
  /\ Fixed.apply_coupon_after_checkout 1 1 = -100
  /\ Vuln.apply_coupon_after_checkout 1 1 < 0
  /\ Fixed.apply_coupon_after_checkout 1 1 < 0.
Proof. repeat split. Qed.

(** The four outcomes of the two conditions. *)
Lemma apply_coupon_cases paid coupon_applied :
  Vuln.apply_coupon_after_checkout paid coupon_applied =
  match truthy paid, truthy coupon_applied with
  | true, true => -100
  | true, false => 0
  | false, true => 0
  | false, false => 100
  end.
Proof.
  unfold Vuln.apply_coupon_after_checkout.
  destruct (truthy paid), (truthy coupon_applied); reflexivity.
Qed.

(** C5: [view_admin_report] prints the admin report whatever [is_admin]
    is, 0 included: its result is the same for any two values of
    [is_admin], in both demos. *)
Theorem view_admin_report_unchecked :
  forall (is_admin is_admin' : Z) (stdout : list char),
    Vuln.view_admin_report is_admin stdout
    = Vuln.view_admin_report is_admin' stdout
    /\ Fixed.view_admin_report is_admin stdout
       = Fixed.view_admin_report is_admin' stdout
    /\ Vuln.view_admin_report 0 stdout = Ok (stdout ++ admin_report)%list
    /\ Fixed.view_admin_report 0 stdout = Ok (stdout ++ admin_report)%list.
Proof. intros. repeat split. Qed.

(** C10: the demo with the Stage 1 fixes keeps the two business-logic
    flaws as they are: its [apply_coupon_after_checkout] and its
    [view_admin_report] return and print, on every input, what those of
    the vulnerable demo do. *)
Theorem business_logic_flaws_preserved :
  (forall paid coupon_applied : Z,
      Fixed.apply_coupon_after_checkout paid coupon_applied
      = Vuln.apply_coupon_after_checkout paid coupon_applied)
  /\ (forall (is_admin : Z) (stdout : list char),
         Fixed.view_admin_report is_admin stdout
         = Vuln.view_admin_report is_admin stdout).
Proof. split; intros; reflexivity. Qed.

End BusinessLogic.

(** ** Stage 1 of the gate *)

Section Ordering.
Import Pipeline.

Lemma key_compare_spec (a b : Key) :
  CompareSpec (a = b) (key_lt a b) (key_lt b a) (key_compare a b).
Proof.
  destruct a as [[s1 e1] c1], b as [[s2 e2] c2].
  unfold key_compare, key_lt.
  destruct (Nat.compare_spec s1 s2); [|constructor; lia|constructor; lia].
  destruct (Nat.compare_spec e1 e2); [|constructor; lia|constructor; lia].
  destruct (Nat.compare_spec c1 c2); constructor; try lia.
  congruence.
Qed.

Lemma key_lt_irrefl a : ~ key_lt a a.
Proof. destruct a as [[s e] c]. unfold key_lt. lia. Qed.

Lemma key_lt_trans a b c : key_lt a b -> key_lt b c -> key_lt a c.
Proof.
  destruct a as [[s1 e1] c1], b as [[s2 e2] c2], c as [[s3 e3] c3].
  unfold key_lt. lia.
Qed.

Lemma key_lt_asym a b : key_lt a b -> ~ key_lt b a.
Proof.
  intros H H'. exact (key_lt_irrefl _ (key_lt_trans _ _ _ H H')).
Qed.

Lemma key_compare_lt a b : key_lt a b -> key_compare a b = Lt.
Proof.
  intros H. destruct (key_compare_spec a b) as [E|L|G]; [|reflexivity|].
  - subst. now apply key_lt_irrefl in H.
  - now apply key_lt_asym in H.
Qed.

Lemma key_compare_gt a b : key_lt b a -> key_compare a b = Gt.
Proof.
  intros H. destruct (key_compare_spec a b) as [E|L|G]; [| |reflexivity].
  - subst. now apply key_lt_irrefl in H.
  - now apply key_lt_asym in H.
Qed.

Lemma key_compare_refl a : key_compare a a = Eq.
Proof.
  destruct (key_compare_spec a a) as [E|L|G]; [reflexivity| |];
    now apply key_lt_irrefl in L || now apply key_lt_irrefl in G.
Qed.

End Ordering.

Section Merging.
Import Pipeline.

Lemma conf_le_spec (a b : Qc) : reflect (a <= b)%Q (conf_le a b).
Proof.
  unfold conf_le. apply iff_reflect. symmetry. apply Qle_bool_iff.
Qed.

Lemma conf_lt_spec (a b : Qc) : reflect (a < b)%Q (conf_lt a b).
Proof.
  unfold conf_lt. change (Qle_bool b a) with (conf_le b a).
  destruct (conf_le_spec b a); simpl; constructor; lra.
Qed.

Lemma category_rank_inj c c' : category_rank c = category_rank c' -> c = c'.
Proof. destruct c, c'; simpl; congruence. Qed.

Lemma detection_eq (d e : Detection) :
  detection_key d = detection_key e ->
  d_confidence d = d_confidence e ->
  d = e.
Proof.
  destruct d, e. unfold detection_key. simpl. intros K C.
  injection K as -> -> R. apply category_rank_inj in R. now subst.
Qed.

Lemma better_cases a b : better a b = a \/ better a b = b.
Proof. unfold better. destruct (conf_lt _ _); auto. Qed.

Lemma better_key a b :
  detection_key a = detection_key b ->
  detection_key (better a b) = detection_key b.
Proof. intros H. destruct (better_cases a b) as [-> | ->]; auto. Qed.

Lemma better_comm a b :
  detection_key a = detection_key b -> better a b = better b a.
Proof.
  intros K. unfold better.
  destruct (conf_lt_spec (d_confidence b) (d_confidence a)),
           (conf_lt_spec (d_confidence a) (d_confidence b));
    try reflexivity; try lra.
  symmetry. apply detection_eq; [exact K|].
  apply Qc_is_canon. lra.
Qed.

Lemma better_assoc a b c : better a (better b c) = better (better a b) c.
Proof.
  unfold better.
  destruct (conf_lt_spec (d_confidence c) (d_confidence b));
    destruct (conf_lt_spec (d_confidence b) (d_confidence a));
    repeat match goal with
           | |- context [conf_lt ?x ?y] => destruct (conf_lt_spec x y)
           end;
    try reflexivity; lra.
Qed.

Lemma better_swap a b c :
  detection_key a = detection_key b ->
  better a (better b c) = better b (better a c).
Proof.
  intros K. now rewrite !better_assoc, (better_comm a b K).
Qed.

Lemma merge_in_comm a b : forall l,
  merge_in a (merge_in b l) = merge_in b (merge_in a l).
Proof.
  induction l as [|e t IH].
  - cbn [merge_in].
    destruct (key_compare_spec (detection_key a) (detection_key b)) as [E|L|G].
    + rewrite <- E, key_compare_refl. f_equal. now apply better_comm.
    + now rewrite (key_compare_gt _ _ L).
    + now rewrite (key_compare_lt _ _ G).
  - cbn [merge_in].
    destruct (key_compare_spec (detection_key b) (detection_key e)) as [Eb|Lb|Gb];
      destruct (key_compare_spec (detection_key a) (detection_key e)) as [Ea|La|Ga];
      cbn [merge_in].
    + rewrite (better_key _ _ Eb), (better_key _ _ Ea).
      rewrite Ea, Eb, key_compare_refl. f_equal.
      apply better_swap. congruence.
    + rewrite (better_key _ _ Eb), (key_compare_lt _ _ La).
      rewrite Eb, (key_compare_gt _ _ La). cbn [merge_in].
      now rewrite key_compare_refl.
    + rewrite (better_key _ _ Eb), (key_compare_gt _ _ Ga).
      now rewrite Eb, key_compare_refl.
    + rewrite (better_key _ _ Ea), (key_compare_lt _ _ Lb).
      rewrite Ea, (key_compare_gt _ _ Lb). cbn [merge_in].
      now rewrite key_compare_refl.
    + destruct (key_compare_spec (detection_key a) (detection_key b)) as [E|L|G].
      * rewrite <- E, key_compare_refl. f_equal. now apply better_comm.
      * rewrite (key_compare_gt _ _ L). cbn [merge_in].
        now rewrite (key_compare_lt _ _ Lb).
      * rewrite (key_compare_lt _ _ G). cbn [merge_in].
        now rewrite (key_compare_lt _ _ La).
    + rewrite (key_compare_gt _ _ (key_lt_trans _ _ _ Lb Ga)).
      rewrite (key_compare_lt _ _ Lb). cbn [merge_in].
      now rewrite (key_compare_gt _ _ Ga).
    + rewrite Ea, key_compare_refl.
      rewrite (better_key _ _ Ea), (key_compare_gt _ _ Gb). reflexivity.
    + rewrite (key_compare_lt _ _ La).
      rewrite (key_compare_gt _ _ (key_lt_trans _ _ _ La Gb)). cbn [merge_in].
      now rewrite (key_compare_gt _ _ Gb).
    + rewrite (key_compare_gt _ _ Ga), (key_compare_gt _ _ Gb).
      now rewrite IH.
Qed.

Lemma merge_all_perm ds ds' :
  Permutation ds ds' -> merge_all ds = merge_all ds'.
Proof.
  unfold merge_all.
  induction 1 as [|x l l' _ IH|x y l|l l' l'' _ IH1 _ IH2]; simpl.
  - reflexivity.
  - now rewrite IH.
  - apply merge_in_comm.
  - now rewrite IH1.
Qed.

End Merging.

Section Stage1.
Import Pipeline.

Lemma merge_in_hdrel x d l :
  HdRel key_lt x (map detection_key l) ->
  key_lt x (detection_key d) ->
  HdRel key_lt x (map detection_key (merge_in d l)).
Proof.
  intros H Hx. destruct l as [|e t]; cbn [merge_in map].
  - now constructor.
  - apply HdRel_inv in H.
    destruct (key_compare_spec (detection_key d) (detection_key e)) as [E|L|G];
      cbn [map]; constructor; auto.
    now rewrite (better_key _ _ E).
Qed.

Lemma merge_in_sorted d : forall l,
  Sorted key_lt (map detection_key l) ->
  Sorted key_lt (map detection_key (merge_in d l)).
Proof.
  induction l as [|e t IH]; intros H; cbn [merge_in map].
  - repeat constructor.
  - cbn [map] in H. apply Sorted_inv in H. destruct H as [Ht He].
    destruct (key_compare_spec (detection_key d) (detection_key e)) as [E|L|G];
      cbn [map].
    + constructor; [exact Ht|]. now rewrite (better_key _ _ E).
    + constructor; [now constructor|now constructor].
    + constructor; [now apply IH|]. now apply merge_in_hdrel.
Qed.

Lemma merge_all_sorted ds : Sorted key_lt (map detection_key (merge_all ds)).
Proof.
  induction ds as [|d t IH]; [constructor|].
  now apply merge_in_sorted.
Qed.

Lemma number_keys fs : forall next,
  map finding_key (number next fs) = map finding_key fs.
Proof.
  induction fs as [|f t IH]; intros next; [reflexivity|].
  cbn [number map]. now rewrite IH.
Qed.

Lemma emit_keys cfg file next ds :
  map finding_key (emit cfg file next ds) = map detection_key ds.
Proof.
  unfold emit. rewrite number_keys, map_map. reflexivity.
Qed.

Lemma stage1_strictly_ordered cfg rules model unit completed next :
  strictly_ordered (sr_findings (stage1 cfg rules model unit completed next)).
Proof.
  unfold strictly_ordered, stage1. cbn [sr_findings].
  rewrite emit_keys. apply merge_all_sorted.
Qed.

(** The order in which the workers finish does not show in the report. *)
Lemma stage1_completion cfg rules model unit completed completed' next :
  Permutation completed completed' ->
  stage1 cfg rules model unit completed next
  = stage1 cfg rules model unit completed' next.
Proof.
  intros H. unfold stage1.
  rewrite (merge_all_perm _ _
             (Permutation_flat_map (analyze_known cfg rules model) H)).
  reflexivity.
Qed.

Lemma step_keeps_stage1 r m st :
  st_phase st <> STAGE1_RUNNING ->
  st_stage1 (step r m st) = st_stage1 st.
Proof.
  intros H. unfold step.
  destruct (st_phase st); cbn [st_stage1]; congruence.
Qed.

Lemma step_leaves_stage1 r m st :
  st_phase st <> READY ->
  st_phase (step r m st) <> STAGE1_RUNNING
  /\ st_phase (step r m st) <> READY.
Proof.
  intros H. unfold step.
  destruct (st_phase st) eqn:E; cbn [st_phase].
  - congruence.
  - destruct (is_block _); [split; discriminate|].
    destruct m; split; discriminate.
  - destruct (is_block _); [split; discriminate|].
    destruct m; split; discriminate.
  - split; discriminate.
  - rewrite E. split; discriminate.
Qed.

Lemma steps_keep_stage1 r m n : forall st,
  st_phase st <> STAGE1_RUNNING -> st_phase st <> READY ->
  st_stage1 (steps r m n st) = st_stage1 st.
Proof.
  induction n as [|k IH]; intros st H1 H2; [reflexivity|].
  cbn [steps].
  destruct (step_leaves_stage1 r m st H2) as [P1 P2].
  rewrite IH by assumption. now apply step_keeps_stage1.
Qed.

Lemma run_stage1 r m n :
  m = Full \/ m = Stage1Only ->
  st_stage1 (steps r m (S (S n)) initial) = Some (stage1_of r).
Proof.
  intros Hm. cbn [steps].
  assert (P : st_phase (step r m initial) = STAGE1_RUNNING
              /\ st_next_id (step r m initial) = 0)
    by (destruct Hm; subst; split; reflexivity).
  destruct P as [P N].
  assert (Q : st_phase (step r m initial) <> READY) by congruence.
  destruct (step_leaves_stage1 r m _ Q) as [P1 P2].
  rewrite steps_keep_stage1 by assumption.
  unfold step at 1. rewrite P, N. cbn [st_stage1].
  destruct Hm; subst; reflexivity.
Qed.

(** C7: Stage 1, run with the rule matcher and the classifier, is
    deterministic: two runs over the same source unit with the same rule
    set, classifier model and configuration produce the same Stage 1
    report, whatever else differs between them (the reasoning backend,
    the history, the order in which the workers finish the snippets), and
    its findings are in location-then-category order. *)
Theorem stage1_deterministic :
  forall (r1 r2 : Run) (m : Mode),
    m = Full \/ m = Stage1Only ->
    run_unit r1 = run_unit r2 ->
    run_rules r1 = run_rules r2 ->
    run_model r1 = run_model r2 ->
    run_cfg r1 = run_cfg r2 ->
    Permutation (su_snippets (run_unit r1)) (run_completed r1) ->
    Permutation (su_snippets (run_unit r2)) (run_completed r2) ->
    gd_stage1 (decide (steps r1 m 4 initial))
    = gd_stage1 (decide (steps r2 m 4 initial))
    /\ sr_findings (gd_stage1 (decide (steps r1 m 4 initial)))
       = sr_findings (stage1_of r1)
    /\ strictly_ordered (sr_findings (gd_stage1 (decide (steps r1 m 4 initial)))).
Proof.
  intros r1 r2 m Hm Hu Hr Hmod Hc P1 P2.
  unfold decide. cbn [gd_stage1].
  rewrite !(run_stage1 _ _ 2 Hm). cbn [or_skipped].
  split; [|split; [reflexivity|apply stage1_strictly_ordered]].
  unfold stage1_of. rewrite <- Hu, <- Hr, <- Hmod, <- Hc.
  apply stage1_completion.
  rewrite <- P1. now rewrite Hu.
Qed.

Lemma stage1_deterministic_witness :
  gd_stage1 (decide (steps (Sample.a_run Sample.down Sample.vulnerable_unit
                              [Sample.copy_snippet; Sample.coupon_snippet])
                           Full 4 initial))
  = gd_stage1 (decide (steps (Sample.a_run Sample.up Sample.vulnerable_unit
                                [Sample.coupon_snippet; Sample.copy_snippet])
                             Full 4 initial)).
Proof.
  apply (stage1_deterministic
           (Sample.a_run Sample.down Sample.vulnerable_unit
                         [Sample.copy_snippet; Sample.coupon_snippet])
           (Sample.a_run Sample.up Sample.vulnerable_unit
                         [Sample.coupon_snippet; Sample.copy_snippet])
           Full).
  - left. reflexivity.
  - reflexivity.
  - reflexivity.
  - reflexivity.
  - reflexivity.
  - simpl. apply Permutation_refl.
  - simpl. apply perm_swap.
Defined.

End Stage1.

(** ** Stage 2 and the failures of the Reasoning Client *)

Section Stage2.
Import Pipeline.

Lemma ask_failure client rq retries : forall attempt,
  (forall k, k <= retries -> exists e, client rq (attempt + k) = Failure e) ->
  exists e, ask client rq attempt retries = Failure e.
Proof.
  induction retries as [|n IH]; intros attempt H; cbn [ask].
  - destruct (H 0 (le_n 0)) as [e E]. rewrite Nat.add_0_r in E.
    rewrite E. now exists e.
  - destruct (H 0 (Nat.le_0_l _)) as [e E]. rewrite Nat.add_0_r in E.
    rewrite E. apply IH. intros k Hk.
    destruct (H (S k)) as [e' E']; [lia|].
    exists e'. now rewrite <- E', Nat.add_succ_r.
Qed.

(** An answer comes from some attempt within the retries. *)
Lemma ask_answer client rq retries : forall attempt rs,
  ask client rq attempt retries = Answer rs ->
  exists k, k <= retries /\ client rq (attempt + k) = Answer rs.
Proof.
  induction retries as [|n IH]; intros attempt rs H; cbn [ask] in H.
  - destruct (client rq attempt) eqn:E; [|discriminate].
    exists 0. now rewrite Nat.add_0_r, E.
  - destruct (client rq attempt) eqn:E.
    + exists 0. split; [lia|]. now rewrite Nat.add_0_r, E.
    + destruct (IH _ _ H) as (k & Hk & Ek).
      exists (S k). split; [lia|]. now rewrite Nat.add_succ_r.
Qed.

Lemma reason_over_failure client cfg unit s : forall snippets,
  In s snippets ->
  client_fails cfg client unit s ->
  snd (reason_over client cfg unit snippets) <> [].
Proof.
  intros snippets Hin Hf.
  induction snippets as [|x t IH]; [destruct Hin|].
  cbn [reason_over].
  destruct (reason_over client cfg unit t) as [rs errs] eqn:E.
  destruct Hin as [->|Hin].
  - destruct (ask_failure client (request_for unit s) (cfg_max_retries cfg) 0)
      as [e Ee]; [exact Hf|].
    rewrite Ee. discriminate.
  - specialize (IH Hin). cbn [snd] in IH.
    destruct (ask _ _ _ _); cbn [snd]; [exact IH|discriminate].
Qed.

Lemma stage2_indeterminate cfg client unit next s :
  In s (su_snippets unit) ->
  client_fails cfg client unit s ->
  sr_verdict (stage2 cfg client unit next) = Indeterminate.
Proof.
  intros Hin Hf. unfold stage2.
  pose proof (reason_over_failure client cfg unit s _ Hin Hf) as H.
  destruct (reason_over client cfg unit (su_snippets unit)) as [rs errs].
  cbn [snd] in H. cbn [sr_verdict].
  destruct errs; [congruence|reflexivity].
Qed.

End Stage2.

(** ** Well-formed reports *)

Section Reports.
Import Pipeline.

Lemma number_in_range fs : forall next,
  Forall in_range fs -> Forall in_range (number next fs).
Proof.
  induction fs as [|f t IH]; intros next H; cbn [number]; [constructor|].
  inversion H; subst. constructor; [assumption|now apply IH].
Qed.

Lemma number_ids fs : forall next,
  map f_id (number next fs) = seq next (List.length fs).
Proof.
  induction fs as [|f t IH]; intros next; [reflexivity|].
  cbn [number map List.length seq f_id]. now rewrite IH.
Qed.

Lemma number_length fs : forall next,
  List.length (number next fs) = List.length fs.
Proof.
  induction fs as [|f t IH]; intros next; [reflexivity|].
  cbn [number List.length]. now rewrite IH.
Qed.

Lemma merge_in_forall (P : Detection -> Prop) d : forall l,
  P d -> Forall P l -> Forall P (merge_in d l).
Proof.
  induction l as [|e t IH]; intros Hd Hl; cbn [merge_in].
  - now constructor.
  - inversion Hl; subst.
    destruct (key_compare _ _).
    + constructor; [|assumption].
      destruct (better_cases d e) as [-> | ->]; assumption.
    + now constructor.
    + constructor; [assumption|now apply IH].
Qed.

Lemma merge_all_forall (P : Detection -> Prop) ds :
  Forall P ds -> Forall P (merge_all ds).
Proof.
  induction 1; [constructor|]. now apply merge_in_forall.
Qed.

Lemma analyze_known_in_range cfg rules model s :
  rules_in_range rules -> model_in_range model ->
  Forall (fun d => in_unit (d_confidence d) = true)
         (analyze_known cfg rules model s).
Proof.
  intros Hr Hm. unfold analyze_known. apply Forall_app. split.
  - unfold rule_matcher. apply Forall_map, Forall_forall.
    intros r Hin. apply filter_In in Hin. cbn [d_confidence].
    now apply Hr.
  - unfold classifier. apply Forall_map, Forall_forall.
    intros c _. cbn [d_confidence]. apply Hm.
Qed.

Lemma stage1_in_range cfg rules model unit completed next :
  rules_in_range rules -> model_in_range model ->
  Forall in_range (sr_findings (stage1 cfg rules model unit completed next)).
Proof.
  intros Hr Hm. unfold stage1, emit. cbn [sr_findings].
  apply number_in_range, Forall_map.
  apply (merge_all_forall (fun d => in_unit (d_confidence d) = true)).
  apply Forall_flat_map, Forall_forall. intros s _.
  now apply analyze_known_in_range.
Qed.

Lemma stage1_ids cfg rules model unit completed next :
  map f_id (sr_findings (stage1 cfg rules model unit completed next))
  = seq next (List.length
                (sr_findings (stage1 cfg rules model unit completed next))).
Proof.
  unfold stage1, emit. cbn [sr_findings].
  now rewrite number_ids, number_length.
Qed.

Lemma reason_over_in_range client cfg unit : forall snippets,
  client_in_range client ->
  Forall (fun i => in_unit (in_confidence i) = true)
         (fst (reason_over client cfg unit snippets)).
Proof.
  intros snippets Hc. induction snippets as [|x t IH]; [constructor|].
  cbn [reason_over].
  destruct (reason_over client cfg unit t) as [rs errs].
  cbn [fst] in IH.
  destruct (ask client (request_for unit x) 0 (cfg_max_retries cfg)) eqn:E;
    cbn [fst]; [|exact IH].
  apply Forall_app. split; [|exact IH].
  destruct (ask_answer _ _ _ _ _ E) as (k & _ & Ek).
  apply Forall_forall. intros i Hi. exact (Hc _ _ _ _ Ek Hi).
Qed.

Lemma insert_by_key_forall (P : Finding -> Prop) f : forall l,
  P f -> Forall P l -> Forall P (insert_by_key f l).
Proof.
  induction l as [|g t IH]; intros Hf Hl; cbn [insert_by_key].
  - now constructor.
  - inversion Hl; subst. destruct (key_le _ _).
    + now constructor.
    + constructor; [assumption|now apply IH].
Qed.

Lemma sort_by_key_forall (P : Finding -> Prop) fs :
  Forall P fs -> Forall P (sort_by_key fs).
Proof.
  induction 1; [constructor|]. now apply insert_by_key_forall.
Qed.

Lemma key_le_total a b : key_le a b = false -> key_le b a = true.
Proof.
  unfold key_le.
  destruct (key_compare_spec a b) as [E|L|G]; try discriminate.
  intros _. now rewrite (key_compare_lt _ _ G).
Qed.

Lemma key_lt_le a b : key_lt a b -> key_le a b = true.
Proof. intros H. unfold key_le. now rewrite (key_compare_lt _ _ H). Qed.

Lemma insert_by_key_hdrel x f l :
  HdRel (fun a b => key_le a b = true) x (map finding_key l) ->
  key_le x (finding_key f) = true ->
  HdRel (fun a b => key_le a b = true) x (map finding_key (insert_by_key f l)).
Proof.
  intros H Hx. destruct l as [|g t]; cbn [insert_by_key map].
  - now constructor.
  - apply HdRel_inv in H.
    destruct (key_le (finding_key f) (finding_key g)); cbn [map];
      now constructor.
Qed.

Lemma insert_by_key_ordered f : forall l,
  ordered l -> ordered (insert_by_key f l).
Proof.
  unfold ordered.
  induction l as [|g t IH]; intros H; cbn [insert_by_key map].
  - repeat constructor.
  - cbn [map] in H. apply Sorted_inv in H. destruct H as [Ht Hg].
    destruct (key_le (finding_key f) (finding_key g)) eqn:E; cbn [map].
    + constructor; [now constructor|now constructor].
    + constructor; [now apply IH|].
      apply insert_by_key_hdrel; [exact Hg|now apply key_le_total].
Qed.

Lemma sort_by_key_ordered fs : ordered (sort_by_key fs).
Proof.
  induction fs as [|f t IH]; [constructor|].
  now apply insert_by_key_ordered.
Qed.

Lemma number_ordered fs next : ordered fs -> ordered (number next fs).
Proof. unfold ordered. now rewrite number_keys. Qed.

Lemma strictly_ordered_ordered fs : strictly_ordered fs -> ordered fs.
Proof.
  unfold strictly_ordered, ordered.
  induction 1 as [|k l Hs IH Hh]; constructor; [assumption|].
  destruct Hh; constructor. now apply key_lt_le.
Qed.

Lemma stage2_ordered cfg client unit next :
  ordered (sr_findings (stage2 cfg client unit next)).
Proof.
  unfold stage2. destruct (reason_over _ _ _ _) as [rs errs].
  cbn [sr_findings]. apply number_ordered, sort_by_key_ordered.
Qed.

Lemma stage2_in_range cfg client unit next :
  client_in_range client ->
  Forall in_range (sr_findings (stage2 cfg client unit next)).
Proof.
  intros Hc. unfold stage2.
  pose proof (reason_over_in_range client cfg unit (su_snippets unit) Hc) as H.
  destruct (reason_over _ _ _ _) as [rs errs].
  cbn [fst] in H. cbn [sr_findings].
  apply number_in_range, sort_by_key_forall, Forall_map.
  exact H.
Qed.

Lemma stage2_ids cfg client unit next :
  map f_id (sr_findings (stage2 cfg client unit next))
  = seq next (List.length (sr_findings (stage2 cfg client unit next))).
Proof.
  unfold stage2. destruct (reason_over _ _ _ _) as [rs errs].
  cbn [sr_findings]. now rewrite number_ids, number_length.
Qed.

Lemma decide_exit st :
  gd_exit (decide st) = 0 <-> gd_overall (decide st) = Pass.
Proof.
  unfold decide. cbn [gd_exit gd_overall].
  repeat match goal with
         | |- context [if ?b then _ else _] => destruct b
         end; split; intros H; try reflexivity; try discriminate.
Qed.

End Reports.

Section Orchestrator.
Import Pipeline.

Lemma full_run r :
  is_block (sr_verdict (stage1_of r)) = false ->
  is_block (sr_verdict (stage2 (run_cfg r) (run_client r) (run_unit r)
                               (0 + List.length (sr_findings (stage1_of r)))))
  = false ->
  steps r Full 4 initial =
  {| st_phase := DONE;
     st_next_id :=
       0 + List.length (sr_findings (stage1_of r))
       + List.length
           (sr_findings
              (stage2 (run_cfg r) (run_client r) (run_unit r)
                      (0 + List.length (sr_findings (stage1_of r)))));
     st_stage1 := Some (stage1_of r);
     st_stage2 :=
       Some (stage2 (run_cfg r) (run_client r) (run_unit r)
                    (0 + List.length (sr_findings (stage1_of r))));
     st_stage3 :=
       Some (stage3 (run_temporal r) (run_unit r) (run_history r)) |}.
Proof.
  intros H1 H2. unfold stage1_of in *.
  unfold steps, step.
  cbn [st_phase st_next_id st_stage1 st_stage2 st_stage3 initial].
  rewrite H1.
  cbn [st_phase st_next_id st_stage1 st_stage2 st_stage3].
  rewrite H2.
  cbn [st_phase st_next_id st_stage1 st_stage2 st_stage3].
  reflexivity.
Qed.

Lemma stage3_verdict tmodel unit history :
  fr_verdict (stage3 tmodel unit history) = Pass.
Proof.
  unfold stage3. now destruct (tm_forecast _ _).
Qed.

Lemma stage1_llm_indeterminate cfg client unit next s :
  In s (su_snippets unit) ->
  client_fails cfg client unit s ->
  sr_verdict (stage1_llm cfg client unit next) = Indeterminate.
Proof.
  intros Hin Hf. unfold stage1_llm.
  pose proof (reason_over_failure client cfg unit s _ Hin Hf) as H.
  destruct (reason_over client cfg unit (su_snippets unit)) as [rs errs].
  cbn [snd] in H. cbn [sr_verdict].
  destruct errs; [congruence|reflexivity].
Qed.

Lemma stage1_llm_ordered cfg client unit next :
  ordered (sr_findings (stage1_llm cfg client unit next)).
Proof.
  unfold stage1_llm. destruct (reason_over _ _ _ _) as [rs errs].
  cbn [sr_findings]. apply number_ordered, sort_by_key_ordered.
Qed.

Lemma stage1_llm_in_range cfg client unit next :
  client_in_range client ->
  Forall in_range (sr_findings (stage1_llm cfg client unit next)).
Proof.
  intros Hc. unfold stage1_llm.
  pose proof (reason_over_in_range client cfg unit (su_snippets unit) Hc) as H.
  destruct (reason_over _ _ _ _) as [rs errs].
  cbn [fst] in H. cbn [sr_findings].
  apply number_in_range, sort_by_key_forall, Forall_map.
  exact H.
Qed.

Lemma stage1_llm_ids cfg client unit next :
  map f_id (sr_findings (stage1_llm cfg client unit next))
  = seq next (List.length (sr_findings (stage1_llm cfg client unit next))).
Proof.
  unfold stage1_llm. destruct (reason_over _ _ _ _) as [rs errs].
  cbn [sr_findings]. now rewrite number_ids, number_length.
Qed.

Lemma stage1_of_ordered r : ordered (sr_findings (stage1_of r)).
Proof. apply strictly_ordered_ordered, stage1_strictly_ordered. Qed.

Lemma stage1_of_ids r :
  map f_id (sr_findings (stage1_of r))
  = seq 0 (List.length (sr_findings (stage1_of r))).
Proof. apply stage1_ids. Qed.

(** *** Where each mode ends *)

Lemma stage1_only_run r :
  steps r Stage1Only 4 initial =
  {| st_phase := DONE;
     st_next_id := 0 + List.length (sr_findings (stage1_of r));
     st_stage1 := Some (stage1_of r);
     st_stage2 := None; st_stage3 := None |}.
Proof.
  unfold stage1_of, steps, step.
  cbn [st_phase st_next_id st_stage1 st_stage2 st_stage3 initial].
  destruct (is_block _);
    cbn [st_phase st_next_id st_stage1 st_stage2 st_stage3]; reflexivity.
Qed.

Lemma blocked_run r :
  is_block (sr_verdict (stage1_of r)) = true ->
  steps r Full 4 initial =
  {| st_phase := DONE;
     st_next_id := 0 + List.length (sr_findings (stage1_of r));
     st_stage1 := Some (stage1_of r);
     st_stage2 := None; st_stage3 := None |}.
Proof.
  intros H. unfold stage1_of in *. unfold steps, step.
  cbn [st_phase st_next_id st_stage1 st_stage2 st_stage3 initial].
  rewrite H.
  cbn [st_phase st_next_id st_stage1 st_stage2 st_stage3]. reflexivity.
Qed.

Lemma stage2_only_run r :
  is_block (sr_verdict (stage2 (run_cfg r) (run_client r) (run_unit r) 0))
  = false ->
  steps r Stage2Only 4 initial =
  {| st_phase := DONE;
     st_next_id :=
       0 + List.length
             (sr_findings
                (stage2 (run_cfg r) (run_client r) (run_unit r) 0));
     st_stage1 := None;
     st_stage2 := Some (stage2 (run_cfg r) (run_client r) (run_unit r) 0);
     st_stage3 := None |}.
Proof.
  intros H. unfold steps, step.
  cbn [st_phase st_next_id st_stage1 st_stage2 st_stage3 initial].
  rewrite H.
  cbn [st_phase st_next_id st_stage1 st_stage2 st_stage3]. reflexivity.
Qed.

Lemma stage3_only_run r :
  steps r Stage3Only 4 initial =
  {| st_phase := DONE; st_next_id := 0;
     st_stage1 := None; st_stage2 := None;
     st_stage3 :=
       Some (stage3 (run_temporal r) (run_unit r) (run_history r)) |}.
Proof. reflexivity. Qed.

Lemma llm_run r :
  is_block (sr_verdict (stage1_llm (run_cfg r) (run_client r) (run_unit r) 0))
  = false ->
  is_block
    (sr_verdict
       (stage2 (run_cfg r) (run_client r) (run_unit r)
               (0 + List.length
                      (sr_findings (stage1_llm (run_cfg r) (run_client r)
                                               (run_unit r) 0)))))
  = false ->
  steps r LlmOnly 4 initial =
  {| st_phase := DONE;
     st_next_id :=
       0 + List.length
             (sr_findings (stage1_llm (run_cfg r) (run_client r)
                                      (run_unit r) 0))
       + List.length
           (sr_findings
              (stage2 (run_cfg r) (run_client r) (run_unit r)
                      (0 + List.length
                             (sr_findings
                                (stage1_llm (run_cfg r) (run_client r)
                                            (run_unit r) 0)))));
     st_stage1 :=
       Some (stage1_llm (run_cfg r) (run_client r) (run_unit r) 0);
     st_stage2 :=
       Some (stage2 (run_cfg r) (run_client r) (run_unit r)
                    (0 + List.length
                           (sr_findings
                              (stage1_llm (run_cfg r) (run_client r)
                                          (run_unit r) 0))));
     st_stage3 :=
       Some (stage3 (run_temporal r) (run_unit r) (run_history r)) |}.
Proof.
  intros H1 H2. unfold steps, step.
  cbn [st_phase st_next_id st_stage1 st_stage2 st_stage3 initial].
  rewrite H1.
  cbn [st_phase st_next_id st_stage1 st_stage2 st_stage3].
  rewrite H2.
  cbn [st_phase st_next_id st_stage1 st_stage2 st_stage3].
  reflexivity.
Qed.

(** *** From the final state to the report *)

Lemma skipped_findings :
  ordered (sr_findings skipped_report)
  /\ Forall in_range (sr_findings skipped_report).
Proof. split; constructor. Qed.

Lemma decided_report r m rep1 rep2 :
  cm_version (run_model r) = cfg_classifier_version (run_cfg r) ->
  tm_version (run_temporal r) = cfg_temporal_version (run_cfg r) ->
  resolve_mode (run_cfg r) = Some m ->
  or_skipped (st_stage1 (steps r m 4 initial)) = rep1 ->
  or_skipped (st_stage2 (steps r m 4 initial)) = rep2 ->
  ordered (sr_findings rep1) ->
  ordered (sr_findings rep2) ->
  Forall in_range (sr_findings rep1) ->
  Forall in_range (sr_findings rep2) ->
  NoDup (map f_id (sr_findings rep1) ++ map f_id (sr_findings rep2)) ->
  run r = Report (decide (steps r m 4 initial))
  /\ well_formed (decide (steps r m 4 initial)).
Proof.
  intros Hcm Htm Hmode E1 E2 O1 O2 R1 R2 N.
  set (gd := decide (steps r m 4 initial)).
  assert (G1 : gd_stage1 gd = rep1) by (subst gd; exact E1).
  assert (G2 : gd_stage2 gd = rep2) by (subst gd; exact E2).
  assert (Hall : Forall in_range (all_findings gd)).
  { unfold all_findings. rewrite G1, G2. apply Forall_app. now split. }
  split.
  - unfold run. rewrite Hcm, Htm, !Nat.eqb_refl. cbn [andb negb].
    rewrite Hmode. fold gd.
    assert (Hv : valid gd = true).
    { unfold valid. apply forallb_forall. intros f Hf.
      rewrite Forall_forall in Hall. now apply Hall. }
    now rewrite Hv.
  - unfold well_formed. rewrite G1, G2.
    split; [exact O1|]. split; [exact O2|]. split; [exact Hall|].
    split; [|apply decide_exit].
    unfold all_findings. rewrite G1, G2, map_app. exact N.
Qed.

Lemma decide_indeterminate st :
  is_block (sr_verdict (or_skipped (st_stage1 st))) = false ->
  sr_verdict (or_skipped (st_stage2 st)) = Indeterminate ->
  is_block (fr_verdict (match st_stage3 st with
                        | Some f => f
                        | None => skipped_forecast
                        end)) = false ->
  gd_exit (decide st) = 4 /\ gd_overall (decide st) = Indeterminate.
Proof.
  intros B1 V2 B3. unfold decide. cbn [gd_exit gd_overall].
  rewrite B1, V2, B3. cbn [is_block is_indeterminate].
  rewrite orb_true_r. split; reflexivity.
Qed.

Lemma not_block_false v : v <> Block -> is_block v = false.
Proof. destruct v; try reflexivity. intros H. now elim H. Qed.

Lemma seq_then n1 n2 : NoDup (seq 0 n1 ++ seq (0 + n1) n2).
Proof. rewrite <- seq_app. apply seq_NoDup. Qed.

(** C6: when the Reasoning Client fails on a request at every attempt the
    retries allow (timeout, authentication failure or rate limiting), the
    Stage 2 report has verdict [Indeterminate], never [Pass]; and the run,
    in whatever mode it was configured, still ends with a report, not a
    fatal error.  The report is well formed and carries what Stage 1
    produced in that mode; its Stage 2 verdict is never [Pass]: it is
    [Indeterminate] whenever Stage 2 was reached (always so in the
    stage2_only and llm_only modes, and in full mode when Stage 1 did not
    block), the report then carrying the Stage 3 result of the mode and an
    overall verdict other than [Pass]; where Stage 2 was not reached it is
    marked skipped. *)
Theorem stage2_failure_indeterminate :
  (forall (cfg : Config) (client : ReasoningClient) (unit : SourceUnit)
          (next : nat) (s : Snippet),
      In s (su_snippets unit) ->
      client_fails cfg client unit s ->
      sr_verdict (stage2 cfg client unit next) = Indeterminate
      /\ sr_verdict (stage2 cfg client unit next) <> Pass)
  /\
  (forall (r : Run) (m : Mode) (s : Snippet),
      cm_version (run_model r) = cfg_classifier_version (run_cfg r) ->
      tm_version (run_temporal r) = cfg_temporal_version (run_cfg r) ->
      resolve_mode (run_cfg r) = Some m ->
      rules_in_range (run_rules r) ->
      model_in_range (run_model r) ->
      client_in_range (run_client r) ->
      In s (su_snippets (run_unit r)) ->
      client_fails (run_cfg r) (run_client r) (run_unit r) s ->
      exists gd : GateDecision,
        run r = Report gd
        /\ well_formed gd
        /\ gd_stage1 gd = stage1_report r m
        /\ sr_verdict (gd_stage2 gd) <> Pass
        /\ (stage2_runs r m ->
            sr_verdict (gd_stage2 gd) = Indeterminate
            /\ gd_stage3 gd = stage3_report r m
            /\ gd_overall gd <> Pass
            /\ gd_exit gd <> 0)
        /\ (~ stage2_runs r m -> gd_stage2 gd = skipped_report)
        /\ (m = Stage2Only \/ m = LlmOnly -> stage2_runs r m)).
Proof.
  split.
  - intros cfg client unit next s Hin Hf.
    rewrite (stage2_indeterminate cfg client unit next s Hin Hf).
    split; [reflexivity|discriminate].
  - intros r m s Hcm Htm Hmode Hr Hm Hc Hin Hf.
    destruct skipped_findings as [Osk Rsk].
    assert (V2 : forall next,
               sr_verdict (stage2 (run_cfg r) (run_client r) (run_unit r) next)
               = Indeterminate)
      by (intros next; now apply (stage2_indeterminate _ _ _ _ s)).
    assert (B2 : forall next,
               is_block (sr_verdict (stage2 (run_cfg r) (run_client r)
                                            (run_unit r) next)) = false)
      by (intros next; now rewrite V2).
    assert (V1 : sr_verdict (stage1_llm (run_cfg r) (run_client r)
                                        (run_unit r) 0) = Indeterminate)
      by now apply (stage1_llm_indeterminate _ _ _ _ s).
    exists (decide (steps r m 4 initial)).
    destruct m.
    + (* full *)
      destruct (is_block (sr_verdict (stage1_of r))) eqn:B1.
      * pose proof (blocked_run r B1) as Hrun.
        destruct (decided_report r Full (stage1_of r) skipped_report
                    Hcm Htm Hmode) as [Erun Wf];
          try (rewrite Hrun; reflexivity); try assumption.
        { apply stage1_of_ordered. }
        { now apply stage1_in_range. }
        { cbn [sr_findings skipped_report map]. rewrite app_nil_r.
          rewrite stage1_of_ids. apply seq_NoDup. }
        split; [exact Erun|]. split; [exact Wf|].
        rewrite Hrun. unfold decide.
        cbn [st_stage1 st_stage2 st_stage3 or_skipped gd_stage1 gd_stage2
             gd_stage3 skipped_report sr_verdict].
        split; [reflexivity|].
        split; [discriminate|]. split.
        { cbn [stage2_runs]. intros N.
          rewrite (not_block_false _ N) in B1. discriminate B1. }
        split; [reflexivity|]. intros [E|E]; discriminate E.
      * pose proof (full_run r B1 (B2 _)) as Hrun.
        destruct (decided_report r Full (stage1_of r)
                    (stage2 (run_cfg r) (run_client r) (run_unit r)
                            (0 + List.length (sr_findings (stage1_of r))))
                    Hcm Htm Hmode) as [Erun Wf];
          try (rewrite Hrun; reflexivity).
        { apply stage1_of_ordered. }
        { apply stage2_ordered. }
        { now apply stage1_in_range. }
        { now apply stage2_in_range. }
        { rewrite stage1_of_ids, stage2_ids. apply seq_then. }
        assert (X : gd_exit (decide (steps r Full 4 initial)) = 4
                    /\ gd_overall (decide (steps r Full 4 initial))
                       = Indeterminate).
        { apply decide_indeterminate; rewrite Hrun;
            cbn [st_stage1 st_stage2 st_stage3 or_skipped];
            rewrite ?stage3_verdict; auto. }
        destruct X as [X1 X2].
        split; [exact Erun|]. split; [exact Wf|].
        rewrite Hrun in X1, X2 |- *. unfold decide in X1, X2 |- *.
        cbn [st_stage1 st_stage2 st_stage3 or_skipped gd_stage1 gd_stage2
             gd_stage3 gd_exit gd_overall] in X1, X2 |- *.
        split; [reflexivity|].
        split; [rewrite V2; discriminate|]. split.
        { intros _. split; [apply V2|]. split; [reflexivity|].
          split; [rewrite X2; discriminate|rewrite X1; discriminate]. }
        split.
        { cbn [stage2_runs]. intros N. exfalso. apply N. intros E.
          rewrite E in B1. discriminate B1. }
        intros [E|E]; discriminate E.
    + (* stage1_only *)
      pose proof (stage1_only_run r) as Hrun.
      destruct (decided_report r Stage1Only (stage1_of r) skipped_report
                  Hcm Htm Hmode) as [Erun Wf];
        try (rewrite Hrun; reflexivity); try assumption.
      { apply stage1_of_ordered. }
      { now apply stage1_in_range. }
      { cbn [sr_findings skipped_report map]. rewrite app_nil_r.
        rewrite stage1_of_ids. apply seq_NoDup. }
      split; [exact Erun|]. split; [exact Wf|].
      rewrite Hrun. unfold decide.
      cbn [st_stage1 st_stage2 st_stage3 or_skipped gd_stage1 gd_stage2
           gd_stage3 skipped_report sr_verdict].
      split; [reflexivity|]. split; [discriminate|].
      split; [intros []|]. split; [reflexivity|].
      intros [E|E]; discriminate E.
    + (* stage2_only *)
      pose proof (stage2_only_run r (B2 0)) as Hrun.
      destruct (decided_report r Stage2Only skipped_report
                  (stage2 (run_cfg r) (run_client r) (run_unit r) 0)
                  Hcm Htm Hmode) as [Erun Wf];
        try (rewrite Hrun; reflexivity); try assumption.
      { apply stage2_ordered. }
      { now apply stage2_in_range. }
      { cbn [sr_findings skipped_report map app].
        rewrite stage2_ids. apply seq_NoDup. }
      assert (X : gd_exit (decide (steps r Stage2Only 4 initial)) = 4
                  /\ gd_overall (decide (steps r Stage2Only 4 initial))
                     = Indeterminate).
      { apply decide_indeterminate; rewrite Hrun;
          cbn [st_stage1 st_stage2 st_stage3 or_skipped];
          auto. }
      destruct X as [X1 X2].
      split; [exact Erun|]. split; [exact Wf|].
      rewrite Hrun in X1, X2 |- *. unfold decide in X1, X2 |- *.
      cbn [st_stage1 st_stage2 st_stage3 or_skipped gd_stage1 gd_stage2
           gd_stage3 gd_exit gd_overall] in X1, X2 |- *.
      split; [reflexivity|].
      split; [rewrite V2; discriminate|]. split.
      { intros _. split; [apply V2|]. split; [reflexivity|].
        split; [rewrite X2; discriminate|rewrite X1; discriminate]. }
      split; [intros N; exfalso; apply N; exact I|].
      intros _. exact I.
    + (* stage3_only *)
      pose proof (stage3_only_run r) as Hrun.
      destruct (decided_report r Stage3Only skipped_report skipped_report
                  Hcm Htm Hmode) as [Erun Wf];
        try (rewrite Hrun; reflexivity); try assumption.
      { constructor. }
      split; [exact Erun|]. split; [exact Wf|].
      rewrite Hrun. unfold decide.
      cbn [st_stage1 st_stage2 st_stage3 or_skipped gd_stage1 gd_stage2
           gd_stage3 skipped_report sr_verdict].
      split; [reflexivity|]. split; [discriminate|].
      split; [intros []|]. split; [reflexivity|].
      intros [E|E]; discriminate E.
    + (* llm_only *)
      assert (B1 : is_block (sr_verdict (stage1_llm (run_cfg r) (run_client r)
                                                    (run_unit r) 0)) = false)
        by now rewrite V1.
      pose proof (llm_run r B1 (B2 _)) as Hrun.
      destruct (decided_report r LlmOnly
                  (stage1_llm (run_cfg r) (run_client r) (run_unit r) 0)
                  (stage2 (run_cfg r) (run_client r) (run_unit r)
                          (0 + List.length
                                 (sr_findings
                                    (stage1_llm (run_cfg r) (run_client r)
                                                (run_unit r) 0))))
                  Hcm Htm Hmode) as [Erun Wf];
        try (rewrite Hrun; reflexivity).
      { apply stage1_llm_ordered. }
      { apply stage2_ordered. }
      { now apply stage1_llm_in_range. }
      { now apply stage2_in_range. }
      { rewrite stage1_llm_ids, stage2_ids. apply seq_then. }
      assert (X : gd_exit (decide (steps r LlmOnly 4 initial)) = 4
                  /\ gd_overall (decide (steps r LlmOnly 4 initial))
                     = Indeterminate).
      { apply decide_indeterminate; rewrite Hrun;
          cbn [st_stage1 st_stage2 st_stage3 or_skipped];
          rewrite ?stage3_verdict; auto. }
      destruct X as [X1 X2].
      split; [exact Erun|]. split; [exact Wf|].
      rewrite Hrun in X1, X2 |- *. unfold decide in X1, X2 |- *.
      cbn [st_stage1 st_stage2 st_stage3 or_skipped gd_stage1 gd_stage2
           gd_stage3 gd_exit gd_overall] in X1, X2 |- *.
      split; [reflexivity|].
      split; [rewrite V2; discriminate|]. split.
      { intros _. split; [apply V2|]. split; [reflexivity|].
        split; [rewrite X2; discriminate|rewrite X1; discriminate]. }
      split.
      { cbn [stage2_runs]. intros N. exfalso. apply N.
        rewrite V1. discriminate. }
      intros _. cbn [stage2_runs]. rewrite V1. discriminate.
Qed.

Lemma stage2_failure_indeterminate_witness :
  exists gd : GateDecision,
    run (Sample.mixed_run false false) = Report gd
    /\ well_formed gd
    /\ gd_stage1 gd = stage1_report (Sample.mixed_run false false) Full
    /\ sr_verdict (gd_stage2 gd) <> Pass
    /\ (stage2_runs (Sample.mixed_run false false) Full ->
        sr_verdict (gd_stage2 gd) = Indeterminate
        /\ gd_stage3 gd = stage3_report (Sample.mixed_run false false) Full
        /\ gd_overall gd <> Pass
        /\ gd_exit gd <> 0)
    /\ (~ stage2_runs (Sample.mixed_run false false) Full ->
        gd_stage2 gd = skipped_report)
    /\ (Full = Stage2Only \/ Full = LlmOnly ->
        stage2_runs (Sample.mixed_run false false) Full).
Proof.
  apply (proj2 stage2_failure_indeterminate (Sample.mixed_run false false)
               Full Sample.report_snippet).
  - reflexivity.
  - reflexivity.
  - reflexivity.
  - intros rule H. simpl in H.
    destruct H as [<-|[<-|[<-|[]]]]; vm_compute; reflexivity.
  - intros s c. destruct c; simpl;
      try destruct (Sample.mentions _ _); vm_compute; reflexivity.
  - intros rq k rs i H Hi.
    cbn [Sample.mixed_run run_client] in H. unfold Sample.flaky in H.
    destruct (Nat.eqb _ 141); [|discriminate H].
    unfold Sample.up in H. injection H as <-.
    destruct Hi as [<-|[]]. vm_compute. reflexivity.
  - simpl. right. right. left. reflexivity.
  - intros k _. exists RateLimited. reflexivity.
Defined.

(** The same failure in each mode that reaches Stage 2: the findings of
    the stages that completed are in the report. *)
Example mixed_run_full :
  match run (Sample.mixed_run false false) with
  | Report gd =>
      sr_verdict (gd_stage1 gd) = Pass
      /\ map f_category (sr_findings (gd_stage1 gd)) = [BufferOverflow]
      /\ map f_line_start (sr_findings (gd_stage1 gd)) = [77]
      /\ sr_verdict (gd_stage2 gd) = Indeterminate
      /\ map f_line_start (sr_findings (gd_stage2 gd)) = [141]
      /\ map f_id (all_findings gd) = [0; 1]
      /\ fr_verdict (gd_stage3 gd) = Pass
      /\ gd_overall gd = Indeterminate
      /\ gd_exit gd = 4
  | Fatal _ _ => False
  end.
Proof. vm_compute. repeat split. Qed.

Example mixed_run_stage2_only :
  match run (Sample.mixed_run true false) with
  | Report gd =>
      sr_verdict (gd_stage1 gd) = Skipped
      /\ sr_verdict (gd_stage2 gd) = Indeterminate
      /\ map f_line_start (sr_findings (gd_stage2 gd)) = [141]
      /\ map f_id (all_findings gd) = [0]
      /\ fr_verdict (gd_stage3 gd) = Skipped
      /\ gd_overall gd = Indeterminate
      /\ gd_exit gd = 4
  | Fatal _ _ => False
  end.
Proof. vm_compute. repeat split. Qed.

Example mixed_run_llm_only :
  match run (Sample.mixed_run false true) with
  | Report gd =>
      sr_verdict (gd_stage1 gd) = Indeterminate
      /\ map f_line_start (sr_findings (gd_stage1 gd)) = [141]
      /\ sr_verdict (gd_stage2 gd) = Indeterminate
      /\ map f_line_start (sr_findings (gd_stage2 gd)) = [141]
      /\ map f_id (all_findings gd) = [0; 1]
      /\ fr_verdict (gd_stage3 gd) = Pass
      /\ gd_exit gd = 4
  | Fatal _ _ => False
  end.
Proof. vm_compute. repeat split. Qed.

End Orchestrator.

(** ** The sample run, evaluated *)

Section SampleRuns.
Import Pipeline.

Example vulnerable_stage1_blocks :
  let rep := stage1_of (Sample.a_run Sample.down Sample.vulnerable_unit
                                     [Sample.coupon_snippet; Sample.copy_snippet]) in
  sr_verdict rep = Block
  /\ map f_category (sr_findings rep) = [BufferOverflow]
  /\ map (fun f => this (f_confidence f)) (sr_findings rep) = [(9 # 10)%Q]
  /\ map f_line_start (sr_findings rep) = [73].
Proof. vm_compute. repeat split. Qed.

Example vulnerable_run_stops_at_stage1 :
  match run (Sample.a_run Sample.up Sample.vulnerable_unit
                          [Sample.copy_snippet; Sample.coupon_snippet]) with
  | Report gd =>
      gd_exit gd = 1 /\ sr_verdict (gd_stage2 gd) = Skipped
      /\ fr_verdict (gd_stage3 gd) = Skipped
  | Fatal _ _ => False
  end.
Proof. vm_compute. repeat split. Qed.

Example fixed_run_blocks_at_stage2 :
  match run (Sample.a_run Sample.up Sample.fixed_unit
                          [Sample.coupon_snippet; Sample.report_snippet]) with
  | Report gd =>
      gd_exit gd = 2 /\ sr_verdict (gd_stage1 gd) = Pass
      /\ sr_verdict (gd_stage2 gd) = Block
      /\ map f_id (sr_findings (gd_stage2 gd)) = [0; 1]
      /\ map f_line_start (sr_findings (gd_stage2 gd)) = [141; 153]
  | Fatal _ _ => False
  end.
Proof. vm_compute. repeat split. Qed.

Example fixed_run_backend_down :
  match run (Sample.a_run Sample.down Sample.fixed_unit
                          [Sample.coupon_snippet; Sample.report_snippet]) with
  | Report gd =>
      gd_exit gd = 4 /\ sr_verdict (gd_stage1 gd) = Pass
      /\ sr_verdict (gd_stage2 gd) = Indeterminate
      /\ fr_verdict (gd_stage3 gd) = Pass
  | Fatal _ _ => False
  end.
Proof. vm_compute. repeat split. Qed.

(** One answer within the retries is enough for a verdict. *)
Example retry_recovers :
  ask (fun _ k => if k <? 2 then Failure RateLimited else Answer [])
      (request_for Sample.fixed_unit Sample.coupon_snippet) 0 2
  = Answer [].
Proof. reflexivity. Qed.

Example contradictory_modes_are_fatal :
  resolve_mode {| cfg_stage1_only := true; cfg_stage2_only := true;
                  cfg_stage3_only := false; cfg_llm_only := false;
                  cfg_keep := Q2Qc 0; cfg_block := Q2Qc 1;
                  cfg_high_severity := fun _ => true; cfg_max_retries := 0;
                  cfg_classifier_version := 1; cfg_temporal_version := 1 |}
  = None.
Proof. reflexivity. Qed.

End SampleRuns.

(** ** The demos, evaluated *)

Section DemoRuns.
Import Libc.

Example compute_score_1_1 : Vuln.compute_score 1 1 = 5%Z.
Proof. reflexivity. Qed.

Example compute_score_clamped : Vuln.compute_score (-10) 0 = 0%Z.
Proof. reflexivity. Qed.

Example compute_score_wraps :
  Vuln.compute_score 1000000000 0 = 0%Z
  /\ int_mul 1000000000 3 = (-1294967296)%Z
  /\ Vuln.compute_score 715827883 0 = 1789569708%Z.
Proof. repeat split. Qed.

Example guest_request_prints :
  match Vuln.handle_request (fun _ => "x"%char) (literal "guest") [] with
  | Ok st =>
      rs_stdout st
      = lit "Query: SELECT * FROM users WHERE name = 'guest'" ++ [LF]
        ++ lit "HTML: <div>guest</div>" ++ [LF]
  | Fault _ => False
  end.
Proof. vm_compute. reflexivity. Qed.

Example seven_characters_fit :
  Vuln.copy_untrusted (lit "xxxxxxxx") (literal "AAAAAAA")
  = Ok (lit "AAAAAAA" ++ [NUL]).
Proof. reflexivity. Qed.

Example eight_characters_overflow_strcpy :
  Vuln.copy_untrusted (lit "xxxxxxxx") (literal "AAAAAAAA")
  = Fault OutOfBoundsWrite.
Proof. reflexivity. Qed.

Example eight_characters_fit_memcpy :
  Vuln.copy_untrusted_bytes (lit "xxxxxxxx") (literal "AAAAAAAA")
  = Ok (lit "AAAAAAAA").
Proof. reflexivity. Qed.

Example nine_characters_overflow_memcpy :
  Vuln.copy_untrusted_bytes (lit "xxxxxxxx") (literal "AAAAAAAAA")
  = Fault OutOfBoundsWrite.
Proof. reflexivity. Qed.

Example admin_report_for_anyone :
  Vuln.view_admin_report 0 [] = Ok admin_report.
Proof. reflexivity. Qed.

End DemoRuns.

(** * Further properties of the demos *)

(** ** Copies and interpolation *)

Section MoreCopies.
Import Libc.

Lemma format_html user_input s :
  cstr user_input = Ok s ->
  format (lit "<div>%s</div>") [user_input] = Ok (html_text s).
Proof.
  intros H. cbn -[cstr]. rewrite H. reflexivity.
Qed.

Lemma render_html_spec out out_size user_input s :
  cstr user_input = Ok s ->
  Vuln.render_html out out_size user_input =
  if List.length (html_text s) <? List.length out
  then Ok (splice out 0 (html_text s ++ [NUL]))
  else Fault OutOfBoundsWrite.
Proof.
  intros H. unfold Vuln.render_html, sprintf.
  rewrite (format_html _ _ H). unfold bind.
  rewrite write_at_spec by lia.
  rewrite (length_app _ [NUL]). simpl (List.length [NUL]).
  set (n := List.length (html_text s)).
  destruct (Nat.leb_spec (0 + (n + 1)) (List.length out));
    destruct (Nat.ltb_spec n (List.length out)); try lia; reflexivity.
Qed.

Lemma html_text_not_nul s : Forall not_nul s -> Forall not_nul (html_text s).
Proof.
  intros H. unfold html_text. apply Forall_app. split; [repeat constructor|].
  apply Forall_app. split; [exact H|repeat constructor].
Qed.

Lemma query_text_not_nul s : Forall not_nul s -> Forall not_nul (query_text s).
Proof.
  intros H. unfold query_text. apply Forall_app.
  split; [apply query_prefix_not_nul|].
  apply Forall_app. split; [exact H|repeat constructor].
Qed.

Lemma cstr_not_nul b s : cstr b = Ok s -> Forall not_nul s.
Proof. intros H. now destruct (cstr_inv _ _ H) as (rest & _ & Hs). Qed.

Lemma splice_string dst t :
  List.length t < List.length dst ->
  List.length (splice dst 0 (t ++ [NUL])) = List.length dst
  /\ skipn (S (List.length t)) (splice dst 0 (t ++ [NUL]))
     = skipn (S (List.length t)) dst.
Proof.
  intros Hl.
  assert (E : List.length (t ++ [NUL]) = S (List.length t))
    by (rewrite length_app; simpl (List.length [NUL]); lia).
  split.
  - apply splice_length. rewrite E. lia.
  - unfold splice. change (firstn 0 dst) with (@nil char). rewrite app_nil_l.
    rewrite E. simpl (0 + _).
    replace (S (List.length t)) with (List.length (t ++ [NUL]) + 0) at 1
      by (rewrite E; lia).
    rewrite skipn_app_2. reflexivity.
Qed.

(** X1: [render_html] of the vulnerable demo puts [user_input], as it
    is, between [<div>] and [</div>]; it writes the text and a terminator
    whatever [out_size] says, and faults on the write exactly when [out]
    is too short for them. *)
Theorem render_html_interpolates :
  forall (out : buffer) (out_size : nat) (user_input : buffer) (s : list char),
    cstr user_input = Ok s ->
    (List.length (html_text s) < List.length out ->
     exists out',
       Vuln.render_html out out_size user_input = Ok out'
       /\ cstr out' = Ok (html_text s)
       /\ List.length out' = List.length out
       /\ skipn (S (List.length (html_text s))) out'
          = skipn (S (List.length (html_text s))) out)
    /\ (List.length out <= List.length (html_text s) ->
        Vuln.render_html out out_size user_input = Fault OutOfBoundsWrite).
Proof.
  intros out out_size user_input s H.
  rewrite (render_html_spec _ out_size _ _ H). split; intros Hl.
  - destruct (Nat.ltb_spec (List.length (html_text s)) (List.length out));
      [|lia].
    eexists. split; [reflexivity|]. split.
    { apply cstr_splice, html_text_not_nul, (cstr_not_nul _ _ H). }
    now apply splice_string.
  - destruct (Nat.ltb_spec (List.length (html_text s)) (List.length out));
      [lia|reflexivity].
Qed.

Lemma render_html_interpolates_witness :
  cstr (literal "<script>") = Ok (lit "<script>")
  /\ Vuln.render_html (repeat NUL 8) 8 (literal "<script>")
     = Fault OutOfBoundsWrite.
Proof.
  split; [reflexivity|].
  apply (render_html_interpolates (repeat NUL 8) 8 (literal "<script>")
                                  (lit "<script>"));
    [reflexivity | simpl; lia].
Defined.

(** X2: [build_query] of the vulnerable demo takes no account of
    [out_size]: it faults on the write exactly when [out] has no room for
    the 35 characters of the query around [user_input], [user_input]
    itself and the terminator. *)
Theorem build_query_overflows :
  forall (out : buffer) (out_size : nat) (user_input : buffer) (s : list char),
    cstr user_input = Ok s ->
    (Vuln.build_query out out_size user_input = Fault OutOfBoundsWrite
     <-> List.length out <= 35 + List.length s)
    /\ Vuln.build_query out out_size user_input
       = Vuln.build_query out 0 user_input.
Proof.
  intros out out_size user_input s H. split; [|reflexivity].
  rewrite (build_query_spec _ out_size _ _ H).
  assert (E : List.length (query_prefix ++ s ++ query_suffix)
              = 35 + List.length s)
    by (rewrite !length_app; simpl; lia).
  rewrite E.
  destruct (Nat.ltb_spec (35 + List.length s) (List.length out));
    split; intros; try lia; try discriminate; reflexivity.
Qed.

Lemma build_query_overflows_witness :
  cstr (literal "bob") = Ok (lit "bob")
  /\ Vuln.build_query (repeat NUL 38) 512 (literal "bob")
     = Fault OutOfBoundsWrite.
Proof.
  split; [reflexivity|].
  apply (proj1 (build_query_overflows (repeat NUL 38) 512 (literal "bob")
                                      (lit "bob") eq_refl)).
  simpl. lia.
Defined.

(** X3: [copy_untrusted] gives back the string it was given exactly when
    the string is strictly shorter than [dst]: then [dst] holds the string
    and its terminator, and nothing behind them is touched; otherwise the
    copy faults on a write past the end of [dst]. *)
Theorem copy_untrusted_round_trip :
  forall (dst src : buffer) (s : list char),
    cstr src = Ok s ->
    (List.length s < List.length dst ->
     exists dst',
       Vuln.copy_untrusted dst src = Ok dst'
       /\ cstr dst' = Ok s
       /\ List.length dst' = List.length dst
       /\ skipn (S (List.length s)) dst' = skipn (S (List.length s)) dst)
    /\ (List.length dst <= List.length s ->
        Vuln.copy_untrusted dst src = Fault OutOfBoundsWrite).
Proof.
  intros dst src s H. rewrite (copy_untrusted_spec _ _ _ H).
  split; intros Hl.
  - destruct (Nat.ltb_spec (List.length s) (List.length dst)); [|lia].
    eexists. split; [reflexivity|]. split.
    { apply cstr_splice, (cstr_not_nul _ _ H). }
    now apply splice_string.
  - destruct (Nat.ltb_spec (List.length s) (List.length dst));
      [lia|reflexivity].
Qed.

Lemma copy_untrusted_round_trip_witness :
  cstr (literal "abc") = Ok (lit "abc")
  /\ exists dst',
      Vuln.copy_untrusted (lit "xxxxxx") (literal "abc") = Ok dst'
      /\ cstr dst' = Ok (lit "abc")
      /\ List.length dst' = List.length (lit "xxxxxx")
      /\ skipn (S (List.length (lit "abc"))) dst'
         = skipn (S (List.length (lit "abc"))) (lit "xxxxxx").
Proof.
  split; [reflexivity|].
  apply (copy_untrusted_round_trip (lit "xxxxxx") (literal "abc") (lit "abc"));
    [reflexivity | simpl; lia].
Defined.

Lemma cstr_prefix s : forall rest,
  Forall not_nul s ->
  cstr (s ++ rest) = (t <- cstr rest ;; Ok (s ++ t)).
Proof.
  induction s as [|c t IH]; intros rest H.
  - simpl. now destruct (cstr rest).
  - inversion H as [|? ? Hc Ht]; subst. simpl. rewrite Hc.
    rewrite IH by assumption. now destruct (cstr rest).
Qed.

(** X4: [copy_untrusted_bytes] writes the characters of the string and no
    terminator: when the string fits in [dst], what [dst] then holds as a
    string is the copied string followed by whatever string lay behind it
    in [dst] (and reading it runs off the end of [dst] when nothing there
    is terminated); when the string is longer than [dst], the copy faults
    on a write. *)
Theorem copy_untrusted_bytes_unterminated :
  forall (dst src : buffer) (s : list char),
    cstr src = Ok s ->
    (List.length s <= List.length dst ->
     Vuln.copy_untrusted_bytes dst src = Ok (s ++ skipn (List.length s) dst)
     /\ cstr (s ++ skipn (List.length s) dst)
        = (t <- cstr (skipn (List.length s) dst) ;; Ok (s ++ t)))
    /\ (List.length s = List.length dst ->
        cstr (s ++ skipn (List.length s) dst) = Fault OutOfBoundsRead)
    /\ (List.length dst < List.length s ->
        Vuln.copy_untrusted_bytes dst src = Fault OutOfBoundsWrite).
Proof.
  intros dst src s H. rewrite (copy_untrusted_bytes_spec _ _ _ H).
  pose proof (cstr_not_nul _ _ H) as Hs.
  split; [|split]; intros Hl.
  - destruct (Nat.leb_spec (List.length s) (List.length dst)); [|lia].
    split; [reflexivity|]. now apply cstr_prefix.
  - rewrite cstr_prefix by assumption.
    rewrite skipn_all2 by lia. reflexivity.
  - destruct (Nat.leb_spec (List.length s) (List.length dst));
      [lia|reflexivity].
Qed.

Lemma copy_untrusted_bytes_unterminated_witness :
  cstr (literal "BB") = Ok (lit "BB")
  /\ Vuln.copy_untrusted_bytes (literal "AAAAAAA") (literal "BB")
     = Ok (lit "BB" ++ skipn 2 (literal "AAAAAAA"))
  /\ cstr (lit "BB" ++ skipn 2 (literal "AAAAAAA")) = Ok (lit "BBAAAAA").
Proof.
  split; [reflexivity|].
  destruct (proj1 (copy_untrusted_bytes_unterminated
                     (literal "AAAAAAA") (literal "BB") (lit "BB") eq_refl))
    as [E C]; [simpl; lia|].
  split; [exact E|]. etransitivity; [exact C|reflexivity].
Defined.

End MoreCopies.

(** ** Requests, users and bounded copies *)

Section MoreRequests.
Import Libc.

Lemma safe_copy_string dst src s n :
  cstr src = Ok s ->
  0 < n ->
  n <= List.length dst ->
  exists dst',
    Vuln.safe_copy dst src n = Ok dst'
    /\ List.length dst' = List.length dst
    /\ cstr dst' = Ok (firstn (n - 1) s)
    /\ skipn n dst' = skipn n dst.
Proof.
  intros H Hpos Hle.
  pose proof (strncpy_image_length s (n - 1)) as Hk.
  exists (strncpy_image s (n - 1) ++ NUL :: skipn n dst).
  split; [now apply safe_copy_spec|]. split; [|split].
  - rewrite length_app. simpl. rewrite Hk, length_skipn. lia.
  - rewrite strncpy_image_split, <- app_assoc, repeat_snoc_cons.
    apply cstr_app, Forall_firstn_keep, (cstr_not_nul _ _ H).
  - replace n with (List.length (strncpy_image s (n - 1)) + 1) at 1 by lia.
    rewrite skipn_app_2. reflexivity.
Qed.

Lemma handle_request_ok stack user_input s stdout :
  cstr user_input = Ok s ->
  List.length s < 8 ->
  exists st : request_state,
    Vuln.handle_request stack user_input stdout = Ok st
    /\ cstr (rs_query st) = Ok (query_text s)
    /\ cstr (rs_html st) = Ok (html_text s)
    /\ rs_stdout st = stdout ++ request_lines (query_text s) (html_text s).
Proof.
  intros H Hl. pose proof (cstr_not_nul _ _ H) as Hs.
  unfold Vuln.handle_request.
  rewrite (copy_untrusted_fits stack _ _ H Hl). unfold bind at 1.
  rewrite (copy_untrusted_bytes_spec _ _ _ H).
  assert (L8 : List.length (alloca stack 0 8) = 8) by apply alloca_length.
  rewrite (proj1 (splice_string (alloca stack 0 8) s ltac:(lia))), L8.
  destruct (Nat.leb_spec (List.length s) 8); [|lia]. unfold bind at 1.
  assert (Lq : List.length (query_prefix ++ s ++ query_suffix)
               = 35 + List.length s)
    by (rewrite !length_app; simpl; lia).
  assert (Lh : List.length (html_text s) = 11 + List.length s)
    by (unfold html_text; rewrite !length_app; simpl; lia).
  rewrite (build_query_spec _ 512 _ _ H), alloca_length, Lq.
  destruct (Nat.ltb_spec (35 + List.length s) 512); [|lia].
  unfold bind at 1.
  rewrite (render_html_spec _ 512 _ _ H), alloca_length, Lh.
  destruct (Nat.ltb_spec (11 + List.length s) 512); [|lia].
  unfold bind at 1.
  rewrite (printf_query _ (query_text s))
    by (apply cstr_splice, query_text_not_nul, Hs).
  unfold bind at 1.
  rewrite (printf_html _ (html_text s))
    by (apply cstr_splice, html_text_not_nul, Hs).
  unfold bind.
  eexists. split; [reflexivity|]. cbn [rs_query rs_html rs_stdout].
  split; [apply cstr_splice, query_text_not_nul, Hs|].
  split; [apply cstr_splice, html_text_not_nul, Hs|].
  unfold request_lines. now rewrite <- !app_assoc.
Qed.

Lemma handle_request_fault stack user_input s stdout :
  cstr user_input = Ok s ->
  8 <= List.length s ->
  Vuln.handle_request stack user_input stdout = Fault OutOfBoundsWrite.
Proof.
  intros H Hl. unfold Vuln.handle_request.
  rewrite (copy_untrusted_spec _ _ _ H), alloca_length.
  destruct (Nat.ltb_spec (List.length s) 8); [lia|reflexivity].
Qed.

(** X5: [handle_request] of the vulnerable demo runs to its end exactly
    when [user_input] has fewer than 8 characters; it then leaves the
    query and the markup built around [user_input] in its buffers and
    prints both, [user_input] as it is. *)
Theorem handle_request_short_input :
  forall (stack : nat -> char) (user_input : buffer) (s stdout : list char),
    cstr user_input = Ok s ->
    (List.length s < 8 ->
     exists st : request_state,
       Vuln.handle_request stack user_input stdout = Ok st
       /\ cstr (rs_query st) = Ok (query_text s)
       /\ cstr (rs_html st) = Ok (html_text s)
       /\ rs_stdout st
          = stdout ++ request_lines (query_text s) (html_text s))
    /\ ((exists st : request_state,
            Vuln.handle_request stack user_input stdout = Ok st)
        <-> List.length s < 8).
Proof.
  intros stack user_input s stdout H.
  split; [now apply handle_request_ok|]. split.
  - intros [st E].
    destruct (Nat.lt_ge_cases (List.length s) 8) as [Hl|Hl]; [exact Hl|].
    rewrite (handle_request_fault stack _ _ stdout H Hl) in E.
    discriminate E.
  - intros Hl.
    destruct (handle_request_ok stack _ _ stdout H Hl) as (st & E & _).
    now exists st.
Qed.

Lemma handle_request_short_input_witness :
  cstr (literal "x'--") = Ok (lit "x'--")
  /\ exists st : request_state,
      Vuln.handle_request (fun _ => NUL) (literal "x'--") [] = Ok st
      /\ cstr (rs_query st) = Ok (query_text (lit "x'--"))
      /\ cstr (rs_html st) = Ok (html_text (lit "x'--"))
      /\ rs_stdout st
         = [] ++ request_lines (query_text (lit "x'--"))
                               (html_text (lit "x'--")).
Proof.
  split; [reflexivity|].
  apply (handle_request_short_input (fun _ => NUL) (literal "x'--")
                                    (lit "x'--") []);
    [reflexivity | simpl; lia].
Defined.

Lemma strncpy_at_unterminated n : forall src dst i,
  Forall not_nul src ->
  n <= List.length src ->
  strncpy_at dst i src n = write_at dst i (firstn n src).
Proof.
  induction n as [|m IH]; intros src dst i Hs Hn.
  - now rewrite firstn_0.
  - destruct src as [|c t]; [simpl in Hn; lia|].
    inversion Hs as [|? ? Hc Ht]; subst.
    rewrite firstn_cons. simpl. rewrite Hc.
    destruct (store dst i c); simpl; [|reflexivity].
    apply IH; [assumption|simpl in Hn; lia].
Qed.

Lemma strncpy_at_short n : forall src dst i,
  Forall not_nul src ->
  List.length src < n ->
  i + n <= List.length dst ->
  strncpy_at dst i src n = Fault OutOfBoundsRead.
Proof.
  induction n as [|m IH]; intros src dst i Hs Hn Hd; [lia|].
  destruct src as [|c t]; [reflexivity|].
  inversion Hs as [|? ? Hc Ht]; subst.
  simpl. rewrite store_spec.
  destruct (Nat.ltb_spec i (List.length dst)); [|lia].
  unfold bind. rewrite Hc.
  apply IH; [assumption|simpl in Hn; lia|].
  rewrite splice_length by (simpl; lia). lia.
Qed.

(** X6: [safe_copy] reads at most [dst_size - 1] bytes of [src].  A
    source holding no terminator at all is copied safely as long as it
    has that many bytes, the result being its first [dst_size - 1] bytes
    and a terminator; a shorter one makes the copy read past the end of
    [src]. *)
Theorem safe_copy_unterminated_source :
  forall (dst src : buffer) (dst_size : nat),
    Forall not_nul src ->
    0 < dst_size ->
    dst_size <= List.length dst ->
    (dst_size - 1 <= List.length src ->
     Vuln.safe_copy dst src dst_size
     = Ok (firstn (dst_size - 1) src ++ NUL :: skipn dst_size dst)
     /\ cstr (firstn (dst_size - 1) src ++ NUL :: skipn dst_size dst)
        = Ok (firstn (dst_size - 1) src))
    /\ (List.length src < dst_size - 1 ->
        Vuln.safe_copy dst src dst_size = Fault OutOfBoundsRead).
Proof.
  intros dst src n Hs Hpos Hle.
  unfold Vuln.safe_copy, strncpy.
  destruct n as [|k]; [lia|].
  change (S k =? 0) with false. cbv iota.
  replace (S k - 1) with k by lia.
  split; intros Hl.
  - rewrite strncpy_at_unterminated by assumption.
    assert (Hk : List.length (firstn k src) = k)
      by (rewrite length_firstn; lia).
    rewrite write_at_spec by lia. rewrite Hk. simpl (0 + k).
    destruct (Nat.leb_spec k (List.length dst)); [|lia].
    unfold bind. rewrite store_spec.
    assert (E : splice dst 0 (firstn k src) = firstn k src ++ skipn k dst)
      by (unfold splice; rewrite Hk; reflexivity).
    rewrite E.
    assert (Hlen : List.length (firstn k src ++ skipn k dst)
                   = List.length dst)
      by (rewrite length_app, length_skipn; lia).
    rewrite Hlen.
    destruct (Nat.ltb_spec k (List.length dst)); [|lia].
    split.
    + f_equal. unfold splice.
      rewrite <- Hk at 1. rewrite firstn_length_app.
      simpl (List.length [NUL]).
      rewrite <- Hk at 2. rewrite skipn_app_2.
      rewrite skipn_skipn. simpl. reflexivity.
    + apply cstr_app. now apply Forall_firstn_keep.
  - now rewrite strncpy_at_short by (assumption || lia).
Qed.

Lemma safe_copy_unterminated_source_witness :
  Forall not_nul (lit "abcdef")
  /\ Vuln.safe_copy (lit "xxxxxx") (lit "abcdef") 4
     = Ok (firstn (4 - 1) (lit "abcdef") ++ NUL :: skipn 4 (lit "xxxxxx")).
Proof.
  split; [repeat constructor|].
  apply (safe_copy_unterminated_source (lit "xxxxxx") (lit "abcdef") 4);
    [repeat constructor | lia | simpl; lia | simpl; lia].
Defined.

(** X7: the [build_query] and [render_html] of the demo with the Stage 1
    fixes keep within [out_size]: given an [out] of at least [out_size]
    bytes they never fault, leave every byte from [out_size] on as it
    was, and leave in [out] the static text cut at [out_size - 1]
    characters; with [out_size = 0] they leave [out] unchanged. *)
Theorem fixed_builders_bounded :
  forall (out : buffer) (out_size : nat),
    out_size <= List.length out ->
    (exists out',
        Fixed.build_query out out_size = Ok out'
        /\ List.length out' = List.length out
        /\ skipn out_size out' = skipn out_size out
        /\ (0 < out_size -> cstr out' = Ok (firstn (out_size - 1) static_query))
        /\ (out_size = 0 -> out' = out))
    /\ (exists out',
           Fixed.render_html out out_size = Ok out'
           /\ List.length out' = List.length out
           /\ skipn out_size out' = skipn out_size out
           /\ (0 < out_size -> cstr out' = Ok (firstn (out_size - 1) static_html))
           /\ (out_size = 0 -> out' = out)).
Proof.
  intros out n Hle.
  assert (G : forall (src : buffer) (t : list char),
             cstr src = Ok t ->
             exists out',
               Vuln.safe_copy out src n = Ok out'
               /\ List.length out' = List.length out
               /\ skipn n out' = skipn n out
               /\ (0 < n -> cstr out' = Ok (firstn (n - 1) t))
               /\ (n = 0 -> out' = out)).
  { intros src t E. destruct n as [|k].
    - exists out. repeat split; intros; try reflexivity; lia.
    - destruct (safe_copy_string out _ _ (S k) E ltac:(lia) Hle)
        as (out' & E1 & E2 & E3 & E4).
      exists out'. repeat split; intros; try assumption; lia. }
  split.
  - exact (G (literal "SELECT * FROM users WHERE active = 1")
             static_query eq_refl).
  - exact (G (literal "<div>Welcome</div>") static_html eq_refl).
Qed.

Lemma fixed_builders_bounded_witness :
  exists out',
    Fixed.build_query (lit "xxxxxxxxxxxx") 7 = Ok out'
    /\ List.length out' = List.length (lit "xxxxxxxxxxxx")
    /\ skipn 7 out' = skipn 7 (lit "xxxxxxxxxxxx")
    /\ (0 < 7 -> cstr out' = Ok (firstn (7 - 1) static_query))
    /\ (7 = 0 -> out' = lit "xxxxxxxxxxxx").
Proof.
  apply (proj1 (fixed_builders_bounded (lit "xxxxxxxxxxxx") 7
                                       ltac:(simpl; lia))).
Defined.

End MoreRequests.

(** ** Users *)

Section Users.
Import Libc.

Lemma vformat_user i b1 b2 n e :
  cstr b1 = Ok n -> cstr b2 = Ok e ->
  Stdio.vformat (lit "User{id=%d, name=%s, email=%s}" ++ [LF])
                [Stdio.AInt i; Stdio.AStr b1; Stdio.AStr b2]
  = Ok (user_line i n e).
Proof.
  intros H1 H2. unfold Stdio.vformat.
  cbn -[cstr Stdio.decimal]. rewrite H1. cbn -[cstr Stdio.decimal].
  rewrite H2. reflexivity.
Qed.

(** X8: [fill_user] stores the id and copies the name and the email into
    the 64 and 128 bytes of the [User], cut at 63 and 127 characters and
    always terminated, so that [print_user] on the result never reads
    past a field and prints the id, the name and the email as cut. *)
Theorem fill_user_bounded :
  forall (u : Vuln.User) (i : Z) (name email : buffer) (n e stdout : list char),
    cstr name = Ok n ->
    cstr email = Ok e ->
    List.length (Vuln.name u) = 64 ->
    List.length (Vuln.email u) = 128 ->
    exists u' : Vuln.User,
      Vuln.fill_user u i name email = Ok u'
      /\ Vuln.id u' = i
      /\ List.length (Vuln.name u') = 64
      /\ List.length (Vuln.email u') = 128
      /\ cstr (Vuln.name u') = Ok (firstn 63 n)
      /\ cstr (Vuln.email u') = Ok (firstn 127 e)
      /\ Vuln.print_user u' stdout
         = Ok (stdout ++ user_line i (firstn 63 n) (firstn 127 e)).
Proof.
  intros [i0 un ue] i name email n e stdout Hn He Ln Le.
  cbn [Vuln.name Vuln.email] in Ln, Le.
  destruct (safe_copy_string un name n 64 Hn ltac:(lia) ltac:(lia))
    as (un' & E1 & L1 & C1 & _).
  destruct (safe_copy_string ue email e 128 He ltac:(lia) ltac:(lia))
    as (ue' & E2 & L2 & C2 & _).
  exists (Vuln.Build_User i un' ue').
  unfold Vuln.fill_user. rewrite E1. unfold bind at 1.
  rewrite E2. unfold bind at 1.
  cbn [Vuln.id Vuln.name Vuln.email].
  change (64 - 1) with 63 in C1. change (128 - 1) with 127 in C2.
  repeat split; try congruence.
  unfold Vuln.print_user, Stdio.vprintf. cbn [Vuln.id Vuln.name Vuln.email].
  now rewrite (vformat_user i un' ue' _ _ C1 C2).
Qed.

Lemma fill_user_bounded_witness :
  exists u' : Vuln.User,
    Vuln.fill_user (Vuln.Build_User 0 (repeat NUL 64) (repeat NUL 128)) 1
                   (literal "Alice") (literal "alice@example.com") = Ok u'
    /\ Vuln.id u' = 1%Z
    /\ List.length (Vuln.name u') = 64
    /\ List.length (Vuln.email u') = 128
    /\ cstr (Vuln.name u') = Ok (firstn 63 (lit "Alice"))
    /\ cstr (Vuln.email u') = Ok (firstn 127 (lit "alice@example.com"))
    /\ Vuln.print_user u' []
       = Ok ([] ++ user_line 1 (firstn 63 (lit "Alice"))
                             (firstn 127 (lit "alice@example.com"))).
Proof.
  apply (fill_user_bounded
           (Vuln.Build_User 0 (repeat NUL 64) (repeat NUL 128)) 1
           (literal "Alice") (literal "alice@example.com")
           (lit "Alice") (lit "alice@example.com") []); reflexivity.
Defined.

End Users.

(** ** Loops *)

Section Loops.
Import Libc.
Local Open Scope Z_scope.

Lemma log_info_heartbeat stdout :
  Vuln.log_info (literal "Heartbeat") stdout = Ok (stdout ++ heartbeat)%list.
Proof. reflexivity. Qed.

(** The multiples of 5 in [i, count). *)
Lemma beats_step i :
  0 <= i ->
  (i + 1 + 4) / 5 = (i + 4) / 5 + (if Z.rem i 5 =? 0 then 1 else 0).
Proof.
  intros Hi. rewrite Z.rem_mod_nonneg by lia.
  destruct (Z.eqb_spec (i mod 5) 0);
    Z.div_mod_to_equations; lia.
Qed.

Lemma metrics_loop_spec n : forall (fuel : nat) (i count : Z) stdout,
  0 <= i <= count -> count < 2 ^ 31 ->
  n = Z.to_nat (count - i) ->
  (n <= fuel)%nat ->
  Vuln.metrics_loop fuel i count stdout
  = Ok (stdout ++ List.concat (repeat heartbeat
                                 (Z.to_nat ((count + 4) / 5 - (i + 4) / 5))))%list.
Proof.
  induction n as [|m IH]; intros fuel i count stdout Hi Hc Hn Hf.
  - assert (i = count) by lia. subst i. rewrite Z.sub_diag.
    destruct fuel; simpl; rewrite ?Z.ltb_irrefl; now rewrite app_nil_r.
  - destruct fuel as [|f]; [lia|].
    simpl Vuln.metrics_loop.
    destruct (Z.ltb_spec i count); [|lia].
    assert (Ei : int_add i 1 = i + 1)
      by (unfold int_add; apply wrap32_small; lia).
    rewrite Ei.
    pose proof (beats_step i ltac:(lia)) as B.
    assert (Hmono : (i + 1 + 4) / 5 <= (count + 4) / 5)
      by (apply Z.div_le_mono; lia).
    destruct (Z.rem i 5 =? 0).
    + rewrite log_info_heartbeat. unfold bind.
      rewrite (IH f (i + 1) count) by lia.
      replace (Z.to_nat ((count + 4) / 5 - (i + 4) / 5))
        with (S (Z.to_nat ((count + 4) / 5 - (i + 1 + 4) / 5))) by lia.
      simpl repeat. simpl List.concat. now rewrite <- app_assoc.
    + unfold bind. rewrite (IH f (i + 1) count) by lia.
      now replace ((count + 4) / 5 - (i + 4) / 5)
        with ((count + 4) / 5 - (i + 1 + 4) / 5) by lia.
Qed.

(** X9: [process_metrics] logs one heartbeat for each multiple of 5 below
    [count], that is [(count + 4) / 5] of them for a positive [count] and
    none for [count <= 0], and nothing else; the loop is over after
    [count] rounds, more fuel changing nothing. *)
Theorem process_metrics_heartbeats :
  forall (count : Z) (stdout : list char),
    count < 2 ^ 31 ->
    Vuln.process_metrics count stdout
    = Ok (stdout ++ List.concat (repeat heartbeat (Z.to_nat ((count + 4) / 5))))%list
    /\ Fixed.process_metrics count stdout = Vuln.process_metrics count stdout
    /\ forall fuel : nat,
        (Z.to_nat count <= fuel)%nat ->
        Vuln.metrics_loop fuel 0 count stdout
        = Vuln.process_metrics count stdout.
Proof.
  intros count stdout Hc.
  assert (G : forall fuel : nat,
             (Z.to_nat count <= fuel)%nat ->
             Vuln.metrics_loop fuel 0 count stdout
             = Ok (stdout ++ List.concat (repeat heartbeat
                                            (Z.to_nat ((count + 4) / 5))))%list).
  { intros fuel Hf. destruct (Z.le_gt_cases 0 count) as [Hp|Hn].
    - rewrite (metrics_loop_spec (Z.to_nat count) fuel 0 count)
        by (try lia; rewrite Z.sub_0_r; reflexivity).
      change ((0 + 4) / 5) with 0. now rewrite Z.sub_0_r.
    - assert (E : Z.to_nat ((count + 4) / 5) = 0%nat).
      { assert ((count + 4) / 5 <= 0); [|lia].
        Z.div_mod_to_equations. lia. }
      rewrite E. simpl. rewrite app_nil_r.
      destruct fuel; simpl; [reflexivity|].
      destruct (Z.ltb_spec 0 count); [lia|reflexivity]. }
  split; [apply G; reflexivity|]. split; [reflexivity|].
  intros fuel Hf. rewrite (G fuel Hf). symmetry. apply G. reflexivity.
Qed.

Lemma process_metrics_heartbeats_witness :
  25 < 2 ^ 31
  /\ Vuln.process_metrics 25 []
     = Ok ([] ++ List.concat (repeat heartbeat (Z.to_nat ((25 + 4) / 5))))%list.
Proof.
  split; [reflexivity|].
  apply (proj1 (process_metrics_heartbeats 25 [] eq_refl)).
Defined.

End Loops.

Section Dumps.
Import Libc.

Lemma vprintf_offset i stdout :
  Stdio.vprintf ([LF] ++ lit "%04zu: ") [Stdio.ASize i] stdout
  = Ok (stdout ++ LF :: Stdio.zero_pad 4 (Stdio.decimal (Z.of_nat i))
               ++ lit ": ").
Proof. reflexivity. Qed.

Lemma vprintf_byte n stdout :
  Stdio.vprintf (lit "%02x ") [Stdio.AUnsigned n] stdout
  = Ok (stdout ++ Stdio.zero_pad 2 (Stdio.hexadecimal n) ++ lit " ").
Proof. reflexivity. Qed.

Lemma load_spec buf i :
  Stdio.load buf i
  = if i <? List.length buf then Ok (nth i buf NUL) else Fault OutOfBoundsRead.
Proof.
  unfold Stdio.load.
  destruct (Nat.ltb_spec i (List.length buf)) as [Hl|Hl].
  - now rewrite (nth_error_nth' buf NUL Hl).
  - apply nth_error_None in Hl. now rewrite Hl.
Qed.

Lemma dump_loop_ok n : forall i buf stdout,
  i + n <= List.length buf ->
  Vuln.dump_loop n i buf stdout
  = Ok (stdout ++ List.concat (map (dump_cell buf) (seq i n))).
Proof.
  induction n as [|m IH]; intros i buf stdout H.
  - simpl. now rewrite app_nil_r.
  - cbn [Vuln.dump_loop]. rewrite load_spec.
    destruct (Nat.ltb_spec i (List.length buf)); [|lia].
    cbn [seq map List.concat]. unfold dump_cell at 1.
    destruct (i mod 16 =? 0).
    + rewrite vprintf_offset. unfold bind at 1. unfold bind at 1.
      rewrite vprintf_byte. unfold bind at 1.
      rewrite IH by lia. rewrite <- !app_assoc. reflexivity.
    + unfold bind at 1. unfold bind at 1.
      rewrite vprintf_byte. unfold bind at 1.
      rewrite IH by lia. rewrite <- !app_assoc. reflexivity.
Qed.

Lemma dump_loop_fault n : forall i buf stdout,
  i <= List.length buf ->
  List.length buf < i + n ->
  Vuln.dump_loop n i buf stdout = Fault OutOfBoundsRead.
Proof.
  induction n as [|m IH]; intros i buf stdout Hi H; [lia|].
  cbn [Vuln.dump_loop]. rewrite load_spec.
  destruct (Nat.ltb_spec i (List.length buf)).
  - destruct (i mod 16 =? 0).
    + rewrite vprintf_offset. unfold bind at 1. unfold bind at 1.
      rewrite vprintf_byte. unfold bind at 1. apply IH; lia.
    + unfold bind at 1. unfold bind at 1.
      rewrite vprintf_byte. unfold bind at 1. apply IH; lia.
  - destruct (i mod 16 =? 0).
    + rewrite vprintf_offset. reflexivity.
    + reflexivity.
Qed.

(** X10: [debug_dump_buffer] trusts [len]: it reads the bytes of [buf]
    at the offsets below [len] and no other.  When [len] is at most the
    size of [buf] it prints the heading with [len], then each of the
    [len] bytes as two hexadecimal digits and a space, a new row opened by
    its four-digit offset every 16 bytes, then a line end; when [len] is
    larger it reads past the end of [buf]. *)
Theorem debug_dump_buffer_bounds :
  forall (buf : buffer) (len : nat) (stdout : list char),
    (len <= List.length buf ->
     Vuln.debug_dump_buffer buf len stdout = Ok (stdout ++ dump_text buf len))
    /\ (List.length buf < len ->
        Vuln.debug_dump_buffer buf len stdout = Fault OutOfBoundsRead).
Proof.
  intros buf len stdout. unfold Vuln.debug_dump_buffer.
  assert (E : Stdio.vprintf (lit "Buffer dump (%zu bytes):" ++ [LF])
                            [Stdio.ASize len] stdout
              = Ok (stdout ++ lit "Buffer dump ("
                           ++ Stdio.decimal (Z.of_nat len)
                           ++ lit " bytes):" ++ [LF])) by reflexivity.
  rewrite E. split; intros H; unfold bind at 1.
  - rewrite dump_loop_ok by lia. unfold bind.
    unfold printf. simpl format. unfold bind, dump_text.
    rewrite <- !app_assoc. reflexivity.
  - rewrite dump_loop_fault by lia. reflexivity.
Qed.

Lemma debug_dump_buffer_bounds_witness :
  Vuln.debug_dump_buffer (lit "demo") 5 [] = Fault OutOfBoundsRead.
Proof.
  apply (proj2 (debug_dump_buffer_bounds (lit "demo") 5 [])).
  simpl. lia.
Defined.

Example dump_demo :
  Vuln.debug_dump_buffer (lit "demo" ++ repeat NUL 28) 4 []
  = Ok (lit "Buffer dump (4 bytes):" ++ [LF; LF]
            ++ lit "0000: 64 65 6d 6f " ++ [LF]).
Proof. reflexivity. Qed.

Example dump_second_row :
  Vuln.debug_dump_buffer (repeat "A"%char 17) 17 []
  = Ok (lit "Buffer dump (17 bytes):" ++ [LF; LF]
            ++ lit "0000: 41 41 41 41 41 41 41 41 41 41 41 41 41 41 41 41 "
            ++ [LF] ++ lit "0016: 41 " ++ [LF]).
Proof. reflexivity. Qed.

End Dumps.

Section Reports2.
Import Libc.

Lemma vprintf_title title t stdout :
  cstr title = Ok t ->
  Stdio.vprintf (lit "=== Report: %s ===" ++ [LF]) [Stdio.AStr title] stdout
  = Ok (stdout ++ lit "=== Report: " ++ t ++ lit " ===" ++ [LF]).
Proof.
  intros H. unfold Stdio.vprintf, Stdio.vformat.
  cbn -[cstr]. rewrite H. reflexivity.
Qed.

Lemma vprintf_title_fault title f stdout :
  cstr title = Fault f ->
  Stdio.vprintf (lit "=== Report: %s ===" ++ [LF]) [Stdio.AStr title] stdout
  = Fault f.
Proof.
  intros H. unfold Stdio.vprintf, Stdio.vformat.
  cbn -[cstr]. rewrite H. reflexivity.
Qed.

Lemma vprintf_line z stdout :
  Stdio.vprintf (lit "Line %d: OK" ++ [LF]) [Stdio.AInt z] stdout
  = Ok (stdout ++ report_line z).
Proof. reflexivity. Qed.

Lemma report_loop_step f i stdout :
  (0 <= i < 10)%Z ->
  Vuln.report_loop (S f) i stdout
  = Vuln.report_loop f (i + 1)%Z (stdout ++ report_line (i + 1)%Z).
Proof.
  intros H. cbn [Vuln.report_loop].
  destruct (Z.ltb_spec i 10); [|lia].
  assert (E : int_add i 1 = (i + 1)%Z).
  { unfold int_add, wrap32. rewrite Z.mod_small; lia. }
  rewrite E, vprintf_line. reflexivity.
Qed.

Lemma report_loop_lines stdout :
  Vuln.report_loop 10 0 stdout
  = Ok (stdout ++ List.concat (map report_line
                                   [1; 2; 3; 4; 5; 6; 7; 8; 9; 10]%Z)).
Proof.
  rewrite !report_loop_step by lia.
  cbn [Vuln.report_loop map List.concat].
  rewrite <- !app_assoc, app_nil_r. reflexivity.
Qed.

(** X11: [generate_report] prints the heading with the title as it is,
    then the ten lines [Line 1: OK] to [Line 10: OK], and nothing else;
    given a title that holds no terminator it reads past the end of the
    title and prints nothing. *)
Theorem generate_report_lines :
  forall (title : buffer) (stdout : list char),
    (forall t : list char,
        cstr title = Ok t ->
        Vuln.generate_report title stdout
        = Ok (stdout ++ lit "=== Report: " ++ t ++ lit " ===" ++ [LF]
                     ++ List.concat (map report_line
                                         [1; 2; 3; 4; 5; 6; 7; 8; 9; 10]%Z)))
    /\ (Forall not_nul title ->
        Vuln.generate_report title stdout = Fault OutOfBoundsRead)
    /\ Fixed.generate_report title stdout = Vuln.generate_report title stdout.
Proof.
  intros title stdout. split; [|split; [|reflexivity]].
  - intros t H. unfold Vuln.generate_report.
    rewrite (vprintf_title _ _ _ H). unfold bind.
    rewrite report_loop_lines. rewrite <- !app_assoc. reflexivity.
  - intros H. unfold Vuln.generate_report.
    assert (E : cstr title = Fault OutOfBoundsRead).
    { clear stdout. induction H as [|c t Hc Ht IH]; [reflexivity|].
      simpl. rewrite Hc, IH. reflexivity. }
    now rewrite (vprintf_title_fault _ _ _ E).
Qed.

Lemma generate_report_lines_witness :
  Vuln.generate_report (literal "Weekly") []
  = Ok ([] ++ lit "=== Report: " ++ lit "Weekly" ++ lit " ===" ++ [LF]
           ++ List.concat (map report_line
                               [1; 2; 3; 4; 5; 6; 7; 8; 9; 10]%Z)).
Proof.
  apply (proj1 (generate_report_lines (literal "Weekly") [])).
  reflexivity.
Defined.

End Reports2.

Section Scores.
Local Open Scope Z_scope.

(** X12: where nothing can wrap, for [a] and [b] between [-2^28] and
    [2^28], [compute_score] is [3a + 2b - a/2] with the division
    truncated toward zero, or 0 when that is negative; in both demos. *)
Theorem compute_score_formula :
  forall a b : Z,
    - 2 ^ 28 <= a <= 2 ^ 28 ->
    - 2 ^ 28 <= b <= 2 ^ 28 ->
    Vuln.compute_score a b = Z.max 0 (a * 3 + b * 2 - Z.quot a 2)
    /\ Fixed.compute_score a b = Z.max 0 (a * 3 + b * 2 - Z.quot a 2).
Proof.
  intros a b Ha Hb.
  assert (G : Vuln.compute_score a b = Z.max 0 (a * 3 + b * 2 - Z.quot a 2)).
  { unfold Vuln.compute_score, int_sub, int_add, int_mul, int_div.
    assert (Hq : - 2 ^ 28 <= Z.quot a 2 <= 2 ^ 28)
      by (Z.quot_rem_to_equations; lia).
    rewrite !(wrap32_small (a * 3)), !(wrap32_small (b * 2)),
            !(wrap32_small (Z.quot a 2)) by lia.
    rewrite !(wrap32_small (a * 3 + b * 2)) by lia.
    rewrite !(wrap32_small (a * 3 + b * 2 - Z.quot a 2)) by lia.
    destruct (Z.ltb_spec (a * 3 + b * 2 - Z.quot a 2) 0); lia. }
  split; exact G.
Qed.

Lemma compute_score_formula_witness :
  Vuln.compute_score (-7) 12 = Z.max 0 (-7 * 3 + 12 * 2 - Z.quot (-7) 2)
  /\ Fixed.compute_score (-7) 12 = Z.max 0 (-7 * 3 + 12 * 2 - Z.quot (-7) 2).
Proof.
  apply (compute_score_formula (-7) 12); lia.
Defined.

(** X13: the total of [apply_coupon_after_checkout] is 100, 0 or -100;
    it is negative exactly when both [paid] and [coupon_applied] are
    nonzero, and 100 exactly when both are 0; in both demos. *)
Theorem coupon_total_cases :
  forall paid coupon_applied : Z,
    let total := Vuln.apply_coupon_after_checkout paid coupon_applied in
    (total = 100 \/ total = 0 \/ total = -100)
    /\ (total < 0 <-> paid <> 0 /\ coupon_applied <> 0)
    /\ (total = 100 <-> paid = 0 /\ coupon_applied = 0)
    /\ Fixed.apply_coupon_after_checkout paid coupon_applied = total.
Proof.
  intros paid coupon_applied total. subst total.
  unfold Vuln.apply_coupon_after_checkout, Fixed.apply_coupon_after_checkout,
    truthy.
  destruct (Z.eqb_spec paid 0), (Z.eqb_spec coupon_applied 0);
    cbn; repeat split; intros; try lia; auto.
Qed.

End Scores.

(** ** The programs *)

Section Programs.
Import Libc.

Lemma view_admin_report_appends is_admin stdout :
  Vuln.view_admin_report is_admin stdout = Ok (stdout ++ admin_report).
Proof. reflexivity. Qed.

Lemma log_warn_completed stdout :
  Vuln.log_warn (literal "Demo completed with potential vulnerabilities.")
                stdout
  = Ok (stdout ++ lit "[WARN] Demo completed with potential vulnerabilities."
               ++ [LF]).
Proof. reflexivity. Qed.

Lemma print_footer_appends stdout :
  Vuln.print_footer stdout = Ok (stdout ++ lit "=== End of Demo ===" ++ [LF]).
Proof. reflexivity. Qed.

Lemma test_buffer_length : List.length (lit "test" ++ repeat NUL 252) = 256.
Proof. reflexivity. Qed.

(** Evaluate the closed call at the head of a sequence. *)
Ltac run_head :=
  match goal with
  | |- bind ?m _ = _ =>
      let v := eval vm_compute in m in
      replace m with v by (vm_compute; reflexivity);
      unfold bind at 1
  end.

Lemma vuln_main_with_argument stack prog arg1 rest s :
  cstr arg1 = Ok s ->
  Vuln.main stack (prog :: arg1 :: rest)
  = (user_input <- Vuln.safe_copy (lit "test" ++ repeat NUL 252) arg1 256 ;;
     st <- Vuln.handle_request stack user_input vuln_prologue ;;
     Ok (0%Z, rs_stdout st ++ epilogue)).
Proof.
  intros H. unfold Vuln.main. cbv zeta.
  do 8 run_head.
  change (1 <? List.length (prog :: arg1 :: rest)) with true. cbv iota.
  change (Stdio.load_arg (prog :: arg1 :: rest) 1) with (Ok arg1).
  unfold bind at 2.
  destruct (Vuln.safe_copy (lit "test" ++ repeat NUL 252) arg1 256)
    as [ui|f]; [|reflexivity].
  unfold bind at 1. unfold bind at 5.
  match goal with
  | |- bind (Vuln.handle_request _ _ ?P) _ = _ =>
      replace P with vuln_prologue by (vm_compute; reflexivity)
  end.
  destruct (Vuln.handle_request stack ui vuln_prologue) as [st|f];
    [|reflexivity].
  unfold bind at 1. unfold bind at 4.
  rewrite view_admin_report_appends. unfold bind at 1.
  rewrite log_warn_completed. unfold bind at 1.
  rewrite print_footer_appends. unfold bind.
  unfold epilogue. now rewrite <- !app_assoc.
Qed.

(** X14: the vulnerable program, run from the command line.  Without an
    argument it handles the request [guest] and returns 0; with a first
    argument of fewer than 8 characters it prints the query and the markup
    built around the argument as it is, and returns 0; with a first
    argument of 8 characters or more it writes past the end of
    [small_buf]: cutting the argument at 255 characters in [main] does not
    protect the 8 bytes of [handle_request]. *)
Theorem vuln_main_outcome :
  forall (stack : nat -> char) (argv : list buffer),
    (List.length argv <= 1 ->
     Vuln.main stack argv
     = Ok (0%Z, vuln_prologue
                  ++ request_lines (query_text (lit "guest"))
                                   (html_text (lit "guest"))
                  ++ epilogue))
    /\ (forall (prog arg1 : buffer) (rest : list buffer) (s : list char),
           argv = prog :: arg1 :: rest ->
           cstr arg1 = Ok s ->
           (List.length s < 8 ->
            Vuln.main stack argv
            = Ok (0%Z, vuln_prologue
                         ++ request_lines (query_text s) (html_text s)
                         ++ epilogue))
           /\ (8 <= List.length s ->
               Vuln.main stack argv = Fault OutOfBoundsWrite)).
Proof.
  intros stack argv. split.
  - intros Hl. destruct argv as [|prog [|arg1 rest]];
      [vm_compute; reflexivity | vm_compute; reflexivity | simpl in Hl; lia].
  - intros prog arg1 rest s -> H.
    rewrite (vuln_main_with_argument stack prog arg1 rest s H).
    destruct (safe_copy_string (lit "test" ++ repeat NUL 252) arg1 s 256 H
                               ltac:(lia) ltac:(rewrite test_buffer_length; lia))
      as (ui & E & _ & C & _).
    rewrite E. change (256 - 1) with 255 in C.
    split; intros Hl; unfold bind at 1.
    + rewrite firstn_all2 in C by lia.
      destruct (handle_request_ok stack ui s vuln_prologue C Hl)
        as (st & Est & _ & _ & Eout).
      rewrite Est. unfold bind. rewrite Eout.
      now rewrite <- !app_assoc.
    + rewrite (handle_request_fault stack ui _ vuln_prologue C);
        [reflexivity|].
      rewrite length_firstn. lia.
Qed.

Lemma vuln_main_outcome_witness :
  cstr (literal "AAAAAAAAAAAA") = Ok (lit "AAAAAAAAAAAA")
  /\ 8 <= List.length (lit "AAAAAAAAAAAA")
  /\ Vuln.main (fun _ => NUL) [literal "demo"; literal "AAAAAAAAAAAA"]
     = Fault OutOfBoundsWrite.
Proof.
  split; [reflexivity|]. split; [simpl; lia|].
  apply (proj2 (vuln_main_outcome (fun _ => NUL)
                                  [literal "demo"; literal "AAAAAAAAAAAA"])
               (literal "demo") (literal "AAAAAAAAAAAA") []
               (lit "AAAAAAAAAAAA") eq_refl eq_refl).
  simpl. lia.
Defined.

Lemma fixed_password_check app_password :
  (forall p, app_password = Some p -> exists s, cstr p = Ok s) ->
  match app_password with
  | None => Fixed.log_warn (literal "APP_PASSWORD not set.") []
  | Some password =>
      c <- Stdio.load password 0 ;;
      if is_nul c then Fixed.log_warn (literal "APP_PASSWORD not set.") []
      else Ok []
  end = Ok (password_warning app_password).
Proof.
  intros Hp. destruct app_password as [p|]; [|reflexivity].
  destruct (Hp p eq_refl) as [s Hs].
  destruct p as [|c p']; [discriminate Hs|].
  unfold password_warning, password_unset.
  change (Stdio.load (c :: p') 0) with (Ok c). unfold bind at 1.
  simpl cstr in *. destruct (is_nul c); [reflexivity|].
  destruct (cstr p'); [reflexivity|discriminate Hs].
Qed.

Lemma fixed_view_admin_report_appends is_admin stdout :
  Fixed.view_admin_report is_admin stdout = Ok (stdout ++ admin_report).
Proof. reflexivity. Qed.

Lemma fixed_log_warn_completed stdout :
  Fixed.log_warn (literal "Demo completed with potential vulnerabilities.")
                 stdout
  = Ok (stdout ++ lit "[WARN] Demo completed with potential vulnerabilities."
               ++ [LF]).
Proof. reflexivity. Qed.

Lemma fixed_print_footer_appends stdout :
  Fixed.print_footer stdout = Ok (stdout ++ lit "=== End of Demo ===" ++ [LF]).
Proof. reflexivity. Qed.

(** The program after the password check. *)
Ltac fixed_main_tail Harg :=
  do 6 run_head;
  match goal with
  | |- context [1 <? List.length ?argv] =>
      destruct argv as [|prog [|arg1 rest]];
      [ vm_compute; reflexivity
      | vm_compute; reflexivity
      | change (1 <? List.length (prog :: arg1 :: rest)) with true;
        cbv iota;
        change (Stdio.load_arg (prog :: arg1 :: rest) 1) with (Ok arg1);
        unfold bind at 2;
        let s := fresh "s" in
        let Hs := fresh "Hs" in
        destruct (Harg arg1 eq_refl) as [s Hs];
        let ui := fresh "ui" in
        let E := fresh "E" in
        destruct (safe_copy_string (lit "test" ++ repeat NUL 252) arg1 s 256
                    Hs ltac:(lia) ltac:(rewrite test_buffer_length; lia))
          as (ui & E & _);
        change (Vuln.safe_copy (lit "test" ++ repeat NUL 252) arg1 256)
          with (Fixed.safe_copy (lit "test" ++ repeat NUL 252) arg1 256) in E;
        rewrite E; unfold bind at 1;
        rewrite fixed_handle_request_spec; unfold bind at 1;
        cbn [rs_stdout fixed_request_state];
        rewrite fixed_view_admin_report_appends; unfold bind at 1;
        rewrite fixed_log_warn_completed; unfold bind at 1;
        rewrite fixed_print_footer_appends; unfold bind;
        f_equal; f_equal;
        rewrite <- !app_assoc;
        vm_compute; reflexivity ]
  end.

(** X15: the program with the Stage 1 fixes never faults and returns 0,
    whatever its first argument and whatever [APP_PASSWORD] holds; what it
    prints does not depend on the arguments at all, and depends on
    [APP_PASSWORD] only through the warning printed first when the
    variable is missing or empty. *)
Theorem fixed_main_safe :
  forall (stack : nat -> char) (argv : list buffer)
         (app_password : option buffer),
    (forall arg1, nth_error argv 1 = Some arg1 -> exists s, cstr arg1 = Ok s) ->
    (forall p, app_password = Some p -> exists s, cstr p = Ok s) ->
    Fixed.main stack argv app_password
    = Ok (0%Z, password_warning app_password
                 ++ fixed_prologue
                 ++ request_lines static_query static_html
                 ++ epilogue).
Proof.
  intros stack argv app_password Harg Hp.
  unfold Fixed.main. cbv zeta.
  rewrite (fixed_password_check app_password Hp). unfold bind at 1.
  unfold password_warning. destruct (password_unset app_password).
  - fixed_main_tail Harg.
  - fixed_main_tail Harg.
Qed.

Lemma fixed_main_safe_witness :
  Fixed.main (fun _ => NUL) [literal "demo"; literal "AAAAAAAAAAAA"]
             (Some (literal "secret"))
  = Ok (0%Z, password_warning (Some (literal "secret"))
               ++ fixed_prologue
               ++ request_lines static_query static_html
               ++ epilogue).
Proof.
  apply (fixed_main_safe (fun _ => NUL)
                         [literal "demo"; literal "AAAAAAAAAAAA"]
                         (Some (literal "secret"))).
  - intros arg1 H. simpl in H. injection H as <-.
    exists (lit "AAAAAAAAAAAA"). reflexivity.
  - intros p H. injection H as <-. exists (lit "secret"). reflexivity.
Defined.

Example fixed_main_warns_without_password :
  Fixed.main (fun _ => NUL) [literal "demo"] None
  = Ok (0%Z, lit "[WARN] APP_PASSWORD not set." ++ [LF]
               ++ fixed_prologue
               ++ request_lines static_query static_html
               ++ epilogue).
Proof. vm_compute. reflexivity. Qed.

Example fixed_main_warns_on_empty_password :
  password_warning (Some (literal "")) = lit "[WARN] APP_PASSWORD not set." ++ [LF]
  /\ password_warning (Some (literal "secret")) = [].
Proof. split; reflexivity. Qed.

Example batch_score : Vuln.batch_loop 50 0 0 = 5625%Z.
Proof. reflexivity. Qed.

End Programs.
